(** * NRTR backend ([backend/app.py]): filtering, lookup, tally and login

    A shallow embedding of the request handlers of the Flask backend and of
    the helpers they call, with the properties of the filtering engine, the
    lookup by identifier, the statistics tally, the counties list, the
    loading of the datasets and the demo login.

    Modelling conventions.
    - A record is a JSON object loaded by [json.load]: a finite map from
      field names to scalar values.  Scalars are [None], booleans, integers
      and strings (floating point numbers and nested containers are left
      out of the model).
    - A Python [str] is modelled by the [string] of the bytes of its UTF-8
      encoding, on which [==], [in], [join] and the order [<] of code
      points are those of the byte strings.  [str.lower] is the parameter
      [lower] of the class [StrLower]; the sample requests, which are ASCII
      text, are run at the instance [ascii_text].
    - [dict.get], [==], truthiness, [str], [in] on strings, [" ".join] and
      slicing are written out as the small functions of the module [Py].
    - A handler is a function of the dataset it reads ([RESOURCES] or
      [OPPORTUNITIES], fixed after [bootstrap_data]) and of the parameters
      of the request; routing and the Flask application object are outside
      the model.  [request.args.get(name)] is an [option string], and
      [request.args.get("limit", type=int)] an [option Z]. *)

From Stdlib Require Import ZArith List Bool Ascii String Lia.
From stdpp Require Import base option list strings pretty gmap fin_maps sorting.

Local Open Scope Z_scope.

(** ** The Python values and primitives the handlers use *)

Module Py.

(** A scalar JSON value, as [json.load] produces it. *)
Inductive value : Type :=
| VNone : value
| VBool : bool → value
| VInt : Z → value
| VStr : string → value.

(** [bool(v)]: the truth value Python gives to [v] in [if v]. *)
Definition truthy (v : value) : bool :=
  match v with
  | VNone => false
  | VBool b => b
  | VInt n => negb (n =? 0)
  | VStr s => negb (String.eqb s "")
  end.

(** [a == b].  [bool] is a subclass of [int], so [True == 1]; a string
    never equals a number, and [None] equals only itself. *)
Definition py_eq (a b : value) : bool :=
  match a, b with
  | VNone, VNone => true
  | VBool x, VBool y => Bool.eqb x y
  | VBool x, VInt n => Z.b2z x =? n
  | VInt n, VBool y => n =? Z.b2z y
  | VInt n, VInt m => n =? m
  | VStr s, VStr t => String.eqb s t
  | _, _ => false
  end.

(** The lower case of one ASCII character: [A]-[Z] go to [a]-[z], every
    other byte is kept. *)
Definition lower_ascii (c : ascii) : ascii :=
  let n := nat_of_ascii c in
  if (Nat.leb 65 n && Nat.leb n 90)%bool then ascii_of_nat (n + 32) else c.

(** [str.lower] on text that is ASCII throughout. *)
Fixpoint ascii_lower (s : string) : string :=
  match s with
  | EmptyString => EmptyString
  | String c s' => String (lower_ascii c) (ascii_lower s')
  end.

(** Every character of the text is ASCII (a byte below 128). *)
Fixpoint is_ascii (s : string) : bool :=
  match s with
  | EmptyString => true
  | String c s' => Nat.ltb (nat_of_ascii c) 128 && is_ascii s'
  end.

(** [s.lower()].  The method is the Unicode lower-casing of the interpreter,
    which works code point by code point and looks at the neighbours of a
    code point for the capital sigma alone.  It is a parameter of the
    development, with the facts about it that the proofs use: it gives the
    empty text for the empty text alone; on ASCII text it is [ascii_lower];
    and a run of ASCII characters is lower-cased in place, whatever stands
    around it. *)
Class StrLower : Type := {
  lower : string → string;
  lower_empty : ∀ s, lower s = "" ↔ s = "";
  lower_on_ascii : ∀ s, is_ascii s = true → lower s = ascii_lower s;
  lower_ascii_run : ∀ a t b, is_ascii t = true →
    ∃ a' b', lower (a +:+ t +:+ b) = a' +:+ ascii_lower t +:+ b'
}.

(** The lower-casing of text that is ASCII throughout, where [str.lower] is
    [ascii_lower]: the instance at which the sample requests are run. *)
Definition ascii_text : StrLower.
Proof.
  refine {| lower := ascii_lower |}.
  - intros s. destruct s; simpl; split; intros H; done.
  - reflexivity.
  - intros a t b _. exists (ascii_lower a), (ascii_lower b).
    assert (∀ x y, ascii_lower (x +:+ y) = ascii_lower x +:+ ascii_lower y) as Happ.
    { intros x y. induction x as [|c x IH]; [reflexivity|].
      change (String c x +:+ y) with (String c (x +:+ y)). simpl.
      rewrite IH. reflexivity. }
    by rewrite !Happ.
Defined.

(** [str(v)]. *)
Definition str (v : value) : string :=
  match v with
  | VNone => "None"
  | VBool true => "True"
  | VBool false => "False"
  | VInt n => pretty n
  | VStr s => s
  end.

(** [sep.join(parts)]. *)
Fixpoint join (sep : string) (parts : list string) : string :=
  match parts with
  | [] => ""
  | [p] => p
  | p :: rest => p +:+ sep +:+ join sep rest
  end.

(** [s.startswith(p)]. *)
Fixpoint startswith (p s : string) : bool :=
  match p, s with
  | EmptyString, _ => true
  | String _ _, EmptyString => false
  | String a p', String b s' => Ascii.eqb a b && startswith p' s'
  end.

(** [needle in haystack] on strings: [needle] starts at some position of
    [haystack]. *)
Fixpoint contains (needle haystack : string) : bool :=
  startswith needle haystack ||
  match haystack with
  | EmptyString => false
  | String _ rest => contains needle rest
  end.

(** [d.get(key)], which is [None] for a missing key. *)
Definition get (d : gmap string value) (key : string) : value :=
  default VNone (d !! key).

(** [d.get(key, dflt)]. *)
Definition get_or (d : gmap string value) (key : string) (dflt : value) : value :=
  default dflt (d !! key).

(** [l[:n]] for an integer [n] that is not negative. *)
Definition slice_to {A : Type} (l : list A) (n : Z) : list A :=
  take (Z.to_nat n) l.

(** A [dict] whose keys are arbitrary scalars, as the [counts] of [tally]:
    entries in insertion order, a key found by [==] (so [True] and [1] are
    one key, and the key first inserted is the one kept). *)
Section Dict.
Context {V : Type}.

(** [d.get(k, dflt)]. *)
Fixpoint dict_get (d : list (value * V)) (k : value) (dflt : V) : V :=
  match d with
  | [] => dflt
  | (k', v) :: rest => if py_eq k' k then v else dict_get rest k dflt
  end.

(** [d[k] = v]. *)
Fixpoint dict_set (d : list (value * V)) (k : value) (v : V) : list (value * V) :=
  match d with
  | [] => [(k, v)]
  | (k', v') :: rest =>
      if py_eq k' k then (k', v) :: rest else (k', v') :: dict_set rest k v
  end.
End Dict.

End Py.

Import Py.

(** A record of a dataset: [Dict[str, Any]]. *)
Abbreviation record := (gmap string value).

(** ** Sample data *)

Definition r1 : record :=
  {[ "id" := VStr "r1"; "county" := VStr "Lake"; "type" := VStr "Food" ]}.
Definition r2 : record :=
  {[ "id" := VStr "r2"; "county" := VStr "Lake"; "type" := VStr "Shelter" ]}.
Definition r3 : record :=
  {[ "id" := VStr "r3"; "county" := VStr "Cook"; "type" := VStr "Food" ]}.

Definition food_lower : record := {[ "type" := VStr "food" ]}.

Definition undescribed : record :=
  {[ "id" := VStr "r4"; "name" := VStr "Pantry"; "description" := VNone ]}.

Definition numbered : record := {[ "id" := VStr "r5"; "county" := VInt 7 ]}.

(** ** The backend, for any lower-casing of text *)

Section Backend.
Context `{Lowering : !StrLower}.

(** ** [normalize] and [apply_filters] *)

(** [normalize(value)]: a string is lower-cased, anything else is kept. *)
Definition normalize (v : value) : value :=
  match v with
  | VStr s => VStr (lower s)
  | _ => v
  end.

(** [cleaned_filters = {k: v for k, v in exact_filters.items() if v}]. *)
Definition cleaned_filters (exact_filters : gmap string value) : gmap string value :=
  filter (λ kv, truthy kv.2 = true) exact_filters.

(** [q = search_query.lower() if search_query else None]. *)
Definition lowered_query (search_query : option string) : option string :=
  match search_query with
  | Some s => if truthy (VStr s) then Some (lower s) else None
  | None => None
  end.

(** The test of one entry of the loop over [cleaned_filters.items()]:
    [value is None or normalize(value) != normalize(expected)] negated. *)
Definition field_ok (item : record) (field : string) (expected : value) : bool :=
  match get item field with
  | VNone => false
  | v => py_eq (normalize v) (normalize expected)
  end.

(** [" ".join(str(item.get(field, "")) for field in search_fields)]. *)
Definition haystack (item : record) (search_fields : list string) : string :=
  join " " (map (λ field, str (get_or item field (VStr ""))) search_fields).

(** The search test: [if q: ... if q not in haystack.lower(): return False]. *)
Definition query_ok (q : option string) (item : record) (search_fields : list string) : bool :=
  match q with
  | Some q' =>
      if truthy (VStr q') then contains q' (lower (haystack item search_fields))
      else true
  | None => true
  end.

(** The closure [matches(item)] of [apply_filters], over the cleaned filters
    and the lower-cased query it captures. *)
Definition matches (cleaned : gmap string value) (q : option string)
    (search_fields : list string) (item : record) : bool :=
  forallb (λ kv, field_ok item kv.1 kv.2) (map_to_list cleaned)
  && query_ok q item search_fields.

(** [apply_filters(items, exact_filters=..., search_query=..., search_fields=...)]. *)
Definition apply_filters (items : list record) (exact_filters : gmap string value)
    (search_query : option string) (search_fields : list string) : list record :=
  List.filter
    (matches (cleaned_filters exact_filters) (lowered_query search_query) search_fields)
    items.

(** ** The request handlers *)

(** The body of a JSON response. *)
Inductive body : Type :=
| BList (count : nat) (results : list record)
    (** [{"count": ..., "results": ...}] *)
| BRecord (r : record)
    (** a record, as it is *)
| BError (error : string)
    (** [{"error": ...}] *)
| BLogin (success : bool) (message : string)
    (** [{"success": ..., "message": ...}] *).

(** A response: the body and the HTTP status ([200] where the handler
    returns the body alone). *)
Definition response : Type := body * Z.

(** [request.args.get(name)] as a Python value: [None] when the parameter
    is not given. *)
Definition arg (a : option string) : value :=
  match a with
  | Some s => VStr s
  | None => VNone
  end.

(** [if limit: filtered = filtered[: max(limit, 0)]], where [limit] is
    [request.args.get("limit", type=int)]. *)
Definition apply_limit (limit : option Z) (filtered : list record) : list record :=
  match limit with
  | Some n => if truthy (VInt n) then slice_to filtered (Z.max n 0) else filtered
  | None => filtered
  end.

(** [GET /api/resources]. *)
Definition list_resources (RESOURCES : list record)
    (county resource_type query : option string) (limit : option Z) : response :=
  let filtered :=
    apply_filters RESOURCES
      {[ "county" := arg county; "type" := arg resource_type ]}
      query ["name"; "description"; "county"; "type"] in
  let filtered := apply_limit limit filtered in
  (BList (length filtered) filtered, 200).

(** [GET /api/opportunities]. *)
Definition list_opportunities (OPPORTUNITIES : list record)
    (county category query : option string) (limit : option Z) : response :=
  let filtered :=
    apply_filters OPPORTUNITIES
      {[ "county" := arg county; "category" := arg category ]}
      query ["title"; "description"; "county"; "category"] in
  let filtered := apply_limit limit filtered in
  (BList (length filtered) filtered, 200).

(** [GET /api/resources/<resource_id>]. *)
Definition get_resource (RESOURCES : list record) (resource_id : string) : response :=
  let matches := List.filter (λ r, py_eq (get r "id") (VStr resource_id)) RESOURCES in
  match matches with
  | [] => (BError "Resource not found", 404)
  | first :: _ => (BRecord first, 200)
  end.

(** [GET /api/opportunities/<opportunity_id>]. *)
Definition get_opportunity (OPPORTUNITIES : list record) (opportunity_id : string) : response :=
  let matches := List.filter (λ o, py_eq (get o "id") (VStr opportunity_id)) OPPORTUNITIES in
  match matches with
  | [] => (BError "Opportunity not found", 404)
  | first :: _ => (BRecord first, 200)
  end.

(** One turn of the loop of [tally]. *)
Definition tally_step (key : string) (counts : list (value * nat)) (item : record)
    : list (value * nat) :=
  let k := get item key in
  if negb (truthy k) then counts
  else dict_set counts k (dict_get counts k 0%nat + 1)%nat.

(** [tally(items, key)] of [GET /api/meta/stats]. *)
Definition tally (items : list record) (key : string) : list (value * nat) :=
  fold_left (tally_step key) items [].

(** The demo users. *)
Definition USERS : gmap string string :=
  {[ "demo@nrtr.org" := "demo123"; "admin@nrtr.org" := "adminpass" ]}.

(** [POST /api/login], on a JSON object [data] whose values are scalars
    (see [login_json] below for values that are arrays or objects). *)
Definition login (data : record) : response :=
  let email := get data "email" in
  let password := get data "password" in
  let known :=
    match email with
    | VStr e =>
        match USERS !! e with
        | Some stored => py_eq (VStr stored) password
        | None => false
        end
    | _ => false
    end in
  if known then (BLogin true "Login successful", 200)
  else (BLogin false "Invalid credentials", 401).

(** ** Start-up, health, counties and statistics *)

(** The exceptions the module lets escape. *)
Inductive exn : Type :=
| FileNotFoundError (path : string)
    (** raised by [load_dataset]; [path] is relative to [DATA_DIR] *)
| OSError
    (** raised by [path.open] on a file that cannot be opened for reading *)
| ValueError
    (** raised by [json.load] on a file that is not UTF-8 text or not JSON
        ([UnicodeDecodeError], [JSONDecodeError]) *)
| TypeError
    (** raised by a comparison [<] between values that have no order, and
        by the hashing of a list or a dict *).

(** What a file of the data directory is to [load_dataset]. *)
Inductive file : Type :=
| Unreadable
    (** it exists and [path.open] fails on it *)
| Malformed
    (** it opens and [json.load] fails on it *)
| Loads (dataset : list record)
    (** it opens and [json.load] returns [dataset] *).

(** [load_dataset(filename)].  The data directory is the finite map from the
    name of each file that exists to what the file is.  What [json.load]
    returns is taken to be an array of objects, as the return type
    [List[Dict[str, Any]]] says. *)
Definition load_dataset (DATA_DIR : gmap string file) (filename : string)
    : exn + list record :=
  match DATA_DIR !! filename with
  | None => inl (FileNotFoundError filename)
  | Some Unreadable => inl OSError
  | Some Malformed => inl ValueError
  | Some (Loads dataset) => inr dataset
  end.

(** [bootstrap_data()], on the globals [(RESOURCES, OPPORTUNITIES)]: the
    globals after the call, and the exception if one is raised.  Each
    assignment takes place as soon as its [load_dataset] has returned. *)
Definition bootstrap_data (DATA_DIR : gmap string file)
    (globals : list record * list record) : list record * list record * option exn :=
  match load_dataset DATA_DIR "resources.json" with
  | inl e => (globals, Some e)
  | inr resources =>
      match load_dataset DATA_DIR "scholarships.json" with
      | inl e => ((resources, globals.2), Some e)
      | inr opportunities => ((resources, opportunities), None)
      end
  end.

(** The body of [GET /api/health]. *)
Record health_body : Type := HealthBody {
  health_status : string;
  health_resources : nat;
  health_opportunities : nat
}.

(** [GET /api/health]. *)
Definition health (RESOURCES OPPORTUNITIES : list record) : health_body :=
  {| health_status := "ok";
     health_resources := length RESOURCES;
     health_opportunities := length OPPORTUNITIES |}.

(** [s.add(v)] on a [set] of scalars, kept as the list of its elements in
    the order they came in: an element [==] to [v] keeps its place. *)
Definition set_add (s : list value) (v : value) : list value :=
  if existsb (λ x, py_eq x v) s then s else s ++ [v].

(** [{r.get("county") for r in RESOURCES if r.get("county")}]. *)
Definition county_set (RESOURCES : list record) : list value :=
  fold_left
    (λ s r, if truthy (get r "county") then set_add s (get r "county") else s)
    RESOURCES [].

(** The integer a number compares as. *)
Definition num (v : value) : Z :=
  match v with
  | VBool b => Z.b2z b
  | VInt n => n
  | _ => 0
  end.

(** [a < b]: strings compare character by character, numbers by value;
    [None], and a string against a number, raise [TypeError]. *)
Definition py_lt (a b : value) : exn + bool :=
  match a, b with
  | VStr s, VStr t => inr (String.ltb s t)
  | VBool _, VBool _ | VBool _, VInt _ | VInt _, VBool _ | VInt _, VInt _ =>
      inr (num a <? num b)
  | _, _ => inl TypeError
  end.

(** One insertion of [sorted]: [x] goes before the first element that is
    not below it. *)
Fixpoint sorted_insert (x : value) (l : list value) : exn + list value :=
  match l with
  | [] => inr [x]
  | y :: l' =>
      match py_lt y x with
      | inl e => inl e
      | inr true =>
          match sorted_insert x l' with
          | inl e => inl e
          | inr r => inr (y :: r)
          end
      | inr false => inr (x :: l)
      end
  end.

(** [sorted(l)]: a stable sort that compares with [<] alone and raises what
    a comparison raises, written as the insertion sort that takes the
    elements from the right. *)
Fixpoint sorted (l : list value) : exn + list value :=
  match l with
  | [] => inr []
  | x :: l' =>
      match sorted l' with
      | inl e => inl e
      | inr r => sorted_insert x r
      end
  end.

(** [GET /api/meta/counties]: the list under ["counties"], or the exception
    that [sorted] raises. *)
Definition list_counties (RESOURCES : list record) : exn + list value :=
  sorted (county_set RESOURCES).

(** The body of [GET /api/meta/stats]. *)
Record stats_body : Type := StatsBody {
  resources_by_county : list (value * nat);
  resources_by_type : list (value * nat);
  opportunities_by_county : list (value * nat);
  opportunities_by_category : list (value * nat)
}.

(** [GET /api/meta/stats]. *)
Definition stats (RESOURCES OPPORTUNITIES : list record) : stats_body :=
  {| resources_by_county := tally RESOURCES "county";
     resources_by_type := tally RESOURCES "type";
     opportunities_by_county := tally OPPORTUNITIES "county";
     opportunities_by_category := tally OPPORTUNITIES "category" |}.

(** A value of the JSON object of a request: a scalar, or a container
    (array or object), of which [login] uses only that it is not hashable
    and equals no string. *)
Inductive json : Type :=
| JScalar (v : value)
| JArray
| JObject.

(** [d.get(key)] on a JSON object. *)
Definition json_get (d : gmap string json) (key : string) : json :=
  default (JScalar VNone) (d !! key).

(** [POST /api/login] on any JSON object: [login] where the values may be
    containers.  [email in USERS] hashes the email first, and raises
    [TypeError] on a list or a dict; [USERS[email] == password] is [False]
    for a password that is a container. *)
Definition login_json (data : gmap string json) : exn + response :=
  let email := json_get data "email" in
  let password := json_get data "password" in
  match email with
  | JArray | JObject => inl TypeError
  | JScalar email =>
      let known :=
        match email with
        | VStr e =>
            match USERS !! e with
            | Some stored =>
                match password with
                | JScalar password => py_eq (VStr stored) password
                | JArray | JObject => false
                end
            | None => false
            end
        | _ => false
        end in
      inr (if known then (BLogin true "Login successful", 200)
           else (BLogin false "Invalid credentials", 401))
  end.

(** ** Vocabulary of the statements *)

(** The representative of a value under [==]: a boolean is its integer. *)
Definition canon (v : value) : value :=
  match v with
  | VBool b => VInt (Z.b2z b)
  | _ => v
  end.

(** [sub] occurs in [s]: the meaning of [sub in s]. *)
Definition is_substring (sub s : string) : Prop :=
  ∃ pre post, s = pre +:+ sub +:+ post.

(** The exact-match relation between a record's value and the expected
    value: equal up to case when both are strings, [==] otherwise. *)
Definition exact_equal (v expected : value) : Prop :=
  match v, expected with
  | VStr s, VStr e => lower s = lower e
  | _, _ => py_eq v expected = true
  end.

(** The records a list endpoint returns. *)
Definition results (resp : response) : list record :=
  match resp.1 with
  | BList _ rs => rs
  | _ => []
  end.

(** The record's [id] field is the string [id]. *)
Definition has_id (id : string) (r : record) : Prop := r !! "id" = Some (VStr id).

(** The number of records whose value for [key] is [==] to [k]. *)
Definition occurrences (items : list record) (key : string) (k : value) : nat :=
  length (List.filter (λ item, py_eq (get item key) k) items).

(** The records whose value for [key] is truthy: those the tally counts. *)
Definition bearing (items : list record) (key : string) : list record :=
  List.filter (λ item, truthy (get item key)) items.

(** No two entries of a [dict] have keys that are [==]. *)
Fixpoint dict_wf {V : Type} (d : list (value * V)) : Prop :=
  match d with
  | [] => True
  | (k, _) :: rest => Forall (λ kv, py_eq k kv.1 = false) rest ∧ dict_wf rest
  end.

(** The value is a string. *)
Definition is_str (v : value) : bool :=
  match v with
  | VStr _ => true
  | _ => false
  end.


(** The county of every record that has one (a truthy value) is a string. *)
Definition counties_are_text (RESOURCES : list record) : Prop :=
  ∀ r, r ∈ RESOURCES → truthy (get r "county") = true → is_str (get r "county") = true.

(** ** Python equality and truthiness *)

Lemma py_eq_canon a b : py_eq a b = true ↔ canon a = canon b.
Proof.
  destruct a as [|x|n|s], b as [|y|m|t]; simpl; split; intros H;
    try discriminate; try reflexivity.
  - apply Bool.eqb_prop in H. by subst.
  - destruct x, y; simpl in H; try discriminate; reflexivity.
  - apply Z.eqb_eq in H. by subst.
  - inversion H. apply Z.eqb_refl.
  - apply Z.eqb_eq in H. by subst.
  - inversion H. apply Z.eqb_refl.
  - apply Z.eqb_eq in H. by subst.
  - inversion H. apply Z.eqb_refl.
  - apply String.eqb_eq in H. by subst.
  - inversion H. apply String.eqb_refl.
Qed.

Lemma py_eq_refl a : py_eq a a = true.
Proof. by apply py_eq_canon. Qed.

Lemma py_eq_sym a b : py_eq a b = py_eq b a.
Proof.
  destruct (py_eq b a) eqn:E.
  - apply py_eq_canon. apply py_eq_canon in E. done.
  - destruct (py_eq a b) eqn:E'; [|done].
    apply py_eq_canon in E'. symmetry in E'. apply py_eq_canon in E'. congruence.
Qed.

Lemma py_eq_trans_l a b c : py_eq a b = true → py_eq a c = py_eq b c.
Proof.
  intros Hab. apply py_eq_canon in Hab.
  destruct (py_eq b c) eqn:E.
  - apply py_eq_canon. apply py_eq_canon in E. congruence.
  - destruct (py_eq a c) eqn:E'; [|done].
    apply py_eq_canon in E'. rewrite Hab in E'. apply py_eq_canon in E'. congruence.
Qed.

Lemma truthy_canon v : truthy (canon v) = truthy v.
Proof. by destruct v as [|[]| |]. Qed.

Lemma py_eq_truthy a b : py_eq a b = true → truthy a = truthy b.
Proof.
  intros H. apply py_eq_canon in H.
  by rewrite <- (truthy_canon a), <- (truthy_canon b), H.
Qed.

Lemma py_eq_str_l s v : py_eq (VStr s) v = true ↔ v = VStr s.
Proof.
  destruct v; simpl; split; intros H; try discriminate.
  - apply String.eqb_eq in H. by subst.
  - inversion H. apply String.eqb_refl.
Qed.

Lemma py_eq_str_r s v : py_eq v (VStr s) = true ↔ v = VStr s.
Proof. rewrite py_eq_sym. apply py_eq_str_l. Qed.

Lemma truthy_str s : truthy (VStr s) = true ↔ s ≠ "".
Proof.
  simpl. rewrite negb_true_iff. split.
  - intros H ->. discriminate.
  - intros H. destruct s; [done | reflexivity].
Qed.

(** ** Strings: lower-casing and substrings *)

Lemma startswith_spec p s : startswith p s = true ↔ ∃ post, s = p +:+ post.
Proof.
  revert s. induction p as [|c p IH]; intros s.
  - split; [intros _; by exists s | done].
  - destruct s as [|d s]; simpl.
    + split; [done | intros [post H]; discriminate].
    + rewrite andb_true_iff, Ascii.eqb_eq, IH. split.
      * intros [-> [post ->]]. by exists post.
      * intros [post H]. inversion H. eauto.
Qed.

Lemma contains_spec n h : contains n h = true ↔ is_substring n h.
Proof.
  unfold is_substring. induction h as [|d h IH]; simpl.
  - rewrite orb_false_r, startswith_spec. split.
    + intros [post H]. by exists "", post.
    + intros ([|c pre] & post & H); [by exists post | discriminate].
  - rewrite orb_true_iff, startswith_spec, IH. split.
    + intros [[post H] | (pre & post & H)].
      * by exists "", post.
      * exists (String d pre), post. simpl. by rewrite H.
    + intros ([|c pre] & post & H).
      * left. by exists post.
      * right. exists pre, post. by inversion H.
Qed.

Lemma contains_empty_haystack n : n ≠ "" → contains n "" = false.
Proof. destruct n; [done | reflexivity]. Qed.

(** ** The predicate [matches] *)

Lemma field_ok_spec item field expected :
  field_ok item field expected = true ↔
  ∃ v, item !! field = Some v ∧ v ≠ VNone ∧ exact_equal v expected.
Proof.
  unfold field_ok, get. destruct (item !! field) as [v|] eqn:Hv; simpl.
  - split.
    + intros H. exists v. split; [done|].
      destruct v as [|b|n|s]; [done| | |]; (split; [done|]);
        destruct expected as [|b'|n'|s']; simpl in *; try done.
      by apply String.eqb_eq.
    + intros (w & [= <-] & Hne & Heq).
      destruct v as [|b|n|s]; [done| | |];
        destruct expected as [|b'|n'|s']; simpl in *; try done.
      by apply String.eqb_eq.
  - split; [done | intros (w & [=] & _)].
Qed.

Lemma cleaned_filters_lookup ef field expected :
  cleaned_filters ef !! field = Some expected ↔
  ef !! field = Some expected ∧ truthy expected = true.
Proof. unfold cleaned_filters. by rewrite map_lookup_filter_Some. Qed.

Lemma matches_spec cleaned q sf item :
  matches cleaned q sf item = true ↔
  (∀ field expected, cleaned !! field = Some expected →
     field_ok item field expected = true)
  ∧ query_ok q item sf = true.
Proof.
  unfold matches. rewrite andb_true_iff, forallb_forall.
  split; intros [Hf Hq]; (split; [|done]).
  - intros field expected Hl. apply (Hf (field, expected)).
    apply list_elem_of_In. by apply elem_of_map_to_list.
  - intros [field expected] Hin. apply Hf.
    apply elem_of_map_to_list. by apply list_elem_of_In.
Qed.

Lemma elem_of_apply_filters items ef sq sf item :
  item ∈ apply_filters items ef sq sf ↔
  item ∈ items
  ∧ (∀ field expected, ef !! field = Some expected → truthy expected = true →
       field_ok item field expected = true)
  ∧ query_ok (lowered_query sq) item sf = true.
Proof.
  unfold apply_filters.
  rewrite !list_elem_of_In, filter_In, matches_spec.
  setoid_rewrite cleaned_filters_lookup.
  split; intros (Hin & Hf & Hq); (split; [done|]); (split; [|done]).
  - intros field expected He Ht. by apply Hf.
  - intros field expected [He Ht]. by apply Hf.
Qed.

Lemma query_ok_nonempty s item sf :
  s ≠ "" →
  query_ok (lowered_query (Some s)) item sf = contains (lower s) (lower (haystack item sf)).
Proof.
  intros Hs. unfold lowered_query, query_ok.
  assert (truthy (VStr s) = true) as -> by by apply truthy_str.
  assert (truthy (VStr (lower s)) = true) as ->; [|done].
  apply truthy_str. by rewrite lower_empty.
Qed.

Lemma haystack_insert_unlisted item sf f v :
  f ∉ sf → haystack (<[f:=v]> item) sf = haystack item sf.
Proof.
  intros Hf. unfold haystack. f_equal. apply map_ext_in.
  intros field Hin. unfold get_or. rewrite lookup_insert_ne; [done|].
  intros ->. apply Hf. by apply list_elem_of_In.
Qed.

Lemma filter_bool_idem {A} (f : A → bool) l :
  List.filter f (List.filter f l) = List.filter f l.
Proof.
  induction l as [|x l IH]; simpl; [done|].
  destruct (f x) eqn:E; simpl; [|done]. by rewrite E, IH.
Qed.

Lemma filter_bool_sublist {A} (f : A → bool) l : List.filter f l `sublist_of` l.
Proof.
  induction l as [|x l IH]; simpl; [constructor|].
  destruct (f x); by constructor.
Qed.

Lemma filter_bool_none {A} (f : A → bool) l :
  (∀ x, f x = false) → List.filter f l = [].
Proof. intros Hf. induction l as [|x l IH]; simpl; [done|]. by rewrite Hf. Qed.

Lemma cleaned_filters_insert_falsy ef k v :
  truthy v = false → cleaned_filters (<[k:=v]> ef) = cleaned_filters (delete k ef).
Proof.
  intros Hv. unfold cleaned_filters. apply map_filter_insert_False.
  simpl. by rewrite Hv.
Qed.

(** ** Properties of [apply_filters] *)

(** C1. A record kept by [apply_filters] has, for every exact-filter entry
    with a truthy (non-empty) expected value, a value for that field that is
    present, is not [None], and equals the expected value: up to case when
    both are strings, by [==] otherwise.  A record for which this fails on
    one field is not in the output.  In particular [type="Food"] keeps a
    record with [type: "food"]. *)
Theorem exact_filter_case_insensitive
    (items : list record) (ef : gmap string value) (sq : option string)
    (sf : list string) (item : record) (field : string) (expected : value) :
  ef !! field = Some expected →
  truthy expected = true →
  (item ∈ apply_filters items ef sq sf →
     ∃ v, item !! field = Some v ∧ v ≠ VNone ∧ exact_equal v expected)
  ∧ ((∀ v, item !! field = Some v → v = VNone ∨ ¬ exact_equal v expected) →
     item ∉ apply_filters items ef sq sf)
  ∧ apply_filters [food_lower] {[ "type" := VStr "Food" ]} None ["name"] = [food_lower].
Proof.
  intros He Ht.
  assert (item ∈ apply_filters items ef sq sf →
          ∃ v, item !! field = Some v ∧ v ≠ VNone ∧ exact_equal v expected) as Hkeep.
  { rewrite elem_of_apply_filters. intros (_ & Hf & _).
    apply field_ok_spec. by apply Hf. }
  split; [done|]. split.
  - intros Hfail Hin. destruct (Hkeep Hin) as (v & Hv & Hne & Heq).
    destruct (Hfail v Hv) as [->|Hn]; [done | by apply Hn].
  - assert (matches (cleaned_filters {[ "type" := VStr "Food" ]}) (lowered_query None)
              ["name"] food_lower = true) as Hm.
    { apply matches_spec. split; [|done].
      intros k e [Hl _]%cleaned_filters_lookup.
      apply lookup_singleton_Some in Hl as [<- <-].
      unfold field_ok. change (get food_lower "type") with (VStr "food"). simpl.
      rewrite !lower_on_ascii by done. reflexivity. }
    unfold apply_filters. cbn [List.filter]. by rewrite Hm.
Qed.

(** C2. With a non-empty search query, a record kept by [apply_filters]
    has the lower-cased query as a substring of its lower-cased haystack:
    the string forms of the listed search fields, a missing field counting
    as the empty string, joined by single spaces.  The haystack does not
    depend on fields outside the list, so a record that carries the query
    text only in such a field is excluded. *)
Theorem search_query_substring
    (items : list record) (ef : gmap string value) (s : string)
    (sf : list string) (item : record) :
  s ≠ "" →
  (item ∈ apply_filters items ef (Some s) sf →
     is_substring (lower s) (lower (haystack item sf)))
  ∧ (∀ f v, f ∉ sf →
       ¬ is_substring (lower s) (lower (haystack item sf)) →
       <[f:=v]> item ∉ apply_filters items ef (Some s) sf).
Proof.
  intros Hs. split.
  - rewrite elem_of_apply_filters. intros (_ & _ & Hq).
    rewrite query_ok_nonempty in Hq by done. by apply contains_spec.
  - intros f v Hf Hno. rewrite elem_of_apply_filters. intros (_ & _ & Hq).
    rewrite query_ok_nonempty in Hq by done.
    rewrite haystack_insert_unlisted in Hq by done.
    by apply Hno, contains_spec.
Qed.

(** C4. [apply_filters] is idempotent: filtering its own output again with
    the same criteria gives that output. *)
Theorem apply_filters_idempotent
    (items : list record) (ef : gmap string value) (sq : option string)
    (sf : list string) :
  apply_filters (apply_filters items ef sq sf) ef sq sf = apply_filters items ef sq sf.
Proof. unfold apply_filters. apply filter_bool_idem. Qed.

(** C5. The output of [apply_filters] is a subsequence of its input: the
    records kept are records of the input, in the order of the input. *)
Theorem apply_filters_subsequence
    (items : list record) (ef : gmap string value) (sq : option string)
    (sf : list string) :
  apply_filters items ef sq sf `sublist_of` items
  ∧ apply_filters items ef sq sf ⊆ items.
Proof.
  assert (apply_filters items ef sq sf `sublist_of` items) as Hsub
    by apply filter_bool_sublist.
  split; [done|]. intros r Hr. by eapply elem_of_sublist.
Qed.

(** C6. An exact-filter entry whose expected value is falsy ([None] for an
    absent parameter, or the empty string) changes nothing: the call gives
    the same sequence as the call without that entry. *)
Theorem falsy_filter_no_constraint
    (items : list record) (ef : gmap string value) (sq : option string)
    (sf : list string) (field : string) (expected : value) :
  truthy expected = false →
  apply_filters items (<[field:=expected]> ef) sq sf
  = apply_filters items (delete field ef) sq sf.
Proof.
  intros Hv. unfold apply_filters. by rewrite cleaned_filters_insert_falsy.
Qed.

(** C10. With a non-empty search query and no search field, every haystack
    is the empty string and [apply_filters] returns the empty sequence. *)
Theorem no_search_fields_no_results
    (items : list record) (ef : gmap string value) (s : string) :
  s ≠ "" → apply_filters items ef (Some s) [] = [].
Proof.
  intros Hs. unfold apply_filters. apply filter_bool_none. intros item.
  unfold matches. rewrite query_ok_nonempty by done.
  change (haystack item []) with "". rewrite (proj2 (lower_empty "") eq_refl).
  rewrite contains_empty_haystack; [apply andb_false_r|].
  by rewrite lower_empty.
Qed.

(** ** The result limit of the list endpoints *)

(** C3, as the handlers have it.  A negative limit gives zero records; a
    limit other than zero truncates to the first [max(limit, 0)] records; a
    limit that is absent or zero leaves the sequence as it is.  Both list
    endpoints apply this to their filtered records. *)
Theorem limit_policy (filtered : list record) (n : Z) :
  (n < 0 → apply_limit (Some n) filtered = [])
  ∧ (n ≠ 0 → apply_limit (Some n) filtered = take (Z.to_nat (Z.max n 0)) filtered)
  ∧ apply_limit (Some 0) filtered = filtered
  ∧ apply_limit None filtered = filtered
  ∧ (∀ RESOURCES county resource_type query limit,
       list_resources RESOURCES county resource_type query limit
       = (BList (length (apply_limit limit
                   (results (list_resources RESOURCES county resource_type query None))))
                (apply_limit limit
                   (results (list_resources RESOURCES county resource_type query None))),
          200))
  ∧ (∀ OPPORTUNITIES county category query limit,
       list_opportunities OPPORTUNITIES county category query limit
       = (BList (length (apply_limit limit
                   (results (list_opportunities OPPORTUNITIES county category query None))))
                (apply_limit limit
                   (results (list_opportunities OPPORTUNITIES county category query None))),
          200)).
Proof.
  assert (n ≠ 0 → apply_limit (Some n) filtered
                  = take (Z.to_nat (Z.max n 0)) filtered) as Hcut.
  { intros Hn. unfold apply_limit, slice_to. simpl.
    destruct (n =? 0) eqn:E; [apply Z.eqb_eq in E; lia | done]. }
  repeat split; try done.
  intros Hn. rewrite Hcut by lia.
  replace (Z.max n 0) with 0 by lia. reflexivity.
Qed.

(** ** Lookup by identifier *)

Lemma id_test_spec id r : py_eq (get r "id") (VStr id) = true ↔ has_id id r.
Proof.
  rewrite py_eq_str_r. unfold get, has_id.
  destruct (r !! "id") as [v|]; simpl; split; intros H; congruence.
Qed.

Lemma filter_bool_nil_iff {A} (f : A → bool) l :
  List.filter f l = [] ↔ Forall (λ x, f x ≠ true) l.
Proof.
  induction l as [|x l IH]; simpl.
  - split; [constructor | done].
  - destruct (f x) eqn:E.
    + split; [done | intros H; inversion H; congruence].
    + rewrite IH. split.
      * intros H. constructor; [congruence | done].
      * intros H. by inversion H.
Qed.

Lemma filter_bool_head_iff {A} (f : A → bool) l x :
  (∃ rest, List.filter f l = x :: rest) ↔
  ∃ pre post, l = pre ++ x :: post ∧ f x = true ∧ Forall (λ y, f y ≠ true) pre.
Proof.
  induction l as [|y l IH]; simpl.
  - split; [intros [rest H]; done | intros ([|] & post & H & _); done].
  - destruct (f y) eqn:E.
    + split.
      * intros [rest [= -> _]]. exists [], l. repeat split; [done | constructor].
      * intros ([|z pre] & post & Hl & Hx & Hpre); simpl in Hl.
        -- inversion Hl; subst. eauto.
        -- inversion Hl; subst. inversion Hpre; congruence.
    + rewrite IH. split.
      * intros (pre & post & -> & Hx & Hpre). exists (y :: pre), post.
        repeat split; [done|]. constructor; [congruence | done].
      * intros ([|z pre] & post & Hl & Hx & Hpre); simpl in Hl.
        -- inversion Hl; subst. congruence.
        -- inversion Hl; subst. inversion Hpre; subst. eauto.
Qed.

Lemma first_match_found (f : record → bool) (l : list record)
    (found : record → response) (missing : response) (r : record) :
  (∀ x, found x ≠ missing) → (∀ x y, found x = found y → x = y) →
  match List.filter f l with [] => missing | first :: _ => found first end = found r
  ↔ ∃ pre post, l = pre ++ r :: post ∧ f r = true ∧ Forall (λ y, f y ≠ true) pre.
Proof.
  intros Hd Hinj. rewrite <- filter_bool_head_iff.
  destruct (List.filter f l) as [|first rest].
  - split; [intros H; symmetry in H; by apply Hd in H | intros [? ?]; done].
  - split.
    + intros H. apply Hinj in H. subst. eauto.
    + intros [rest' [= -> _]]. done.
Qed.

Lemma first_match_missing (f : record → bool) (l : list record)
    (found : record → response) (missing : response) :
  (∀ x, found x ≠ missing) →
  match List.filter f l with [] => missing | first :: _ => found first end = missing
  ↔ Forall (λ y, f y ≠ true) l.
Proof.
  intros Hd. rewrite <- filter_bool_nil_iff.
  destruct (List.filter f l) as [|first rest]; [done|].
  split; [intros H; by apply Hd in H | done].
Qed.

Lemma Forall_id_test id (l : list record) :
  Forall (λ y, py_eq (get y "id") (VStr id) ≠ true) l ↔ Forall (λ y, ¬ has_id id y) l.
Proof. apply Forall_iff. intros y. by rewrite id_test_spec. Qed.

(** C7. Lookup by identifier answers with the first record of the dataset
    whose [id] field is the identifier (status 200), and with the 404 error
    body exactly when no record has that identifier. *)
Theorem lookup_by_id_first_match (dataset : list record) (id : string) :
  (∀ r, get_resource dataset id = (BRecord r, 200) ↔
        ∃ pre post, dataset = pre ++ r :: post ∧ has_id id r
                    ∧ Forall (λ x, ¬ has_id id x) pre)
  ∧ (get_resource dataset id = (BError "Resource not found", 404) ↔
     Forall (λ x, ¬ has_id id x) dataset)
  ∧ (∀ r, get_opportunity dataset id = (BRecord r, 200) ↔
          ∃ pre post, dataset = pre ++ r :: post ∧ has_id id r
                      ∧ Forall (λ x, ¬ has_id id x) pre)
  ∧ (get_opportunity dataset id = (BError "Opportunity not found", 404) ↔
     Forall (λ x, ¬ has_id id x) dataset).
Proof.
  unfold get_resource, get_opportunity.
  repeat split.
  - intros H. apply (first_match_found _ _ (λ x, (BRecord x, 200))) in H;
      [|done|by intros x y [=]].
    destruct H as (pre & post & ? & ? & ?). exists pre, post.
    by rewrite <- id_test_spec, <- Forall_id_test.
  - intros (pre & post & ? & ? & ?).
    apply (first_match_found _ _ (λ x, (BRecord x, 200))); [done|by intros x y [=]|].
    exists pre, post. by rewrite id_test_spec, Forall_id_test.
  - intros H. apply first_match_missing in H; [|done]. by apply Forall_id_test.
  - intros H. apply first_match_missing; [done|]. by apply Forall_id_test.
  - intros H. apply (first_match_found _ _ (λ x, (BRecord x, 200))) in H;
      [|done|by intros x y [=]].
    destruct H as (pre & post & ? & ? & ?). exists pre, post.
    by rewrite <- id_test_spec, <- Forall_id_test.
  - intros (pre & post & ? & ? & ?).
    apply (first_match_found _ _ (λ x, (BRecord x, 200))); [done|by intros x y [=]|].
    exists pre, post. by rewrite id_test_spec, Forall_id_test.
  - intros H. apply first_match_missing in H; [|done]. by apply Forall_id_test.
  - intros H. apply first_match_missing; [done|]. by apply Forall_id_test.
Qed.

(** ** The tally of the statistics endpoint *)

Section DictLemmas.
Context {V : Type}.
Implicit Types (d : list (value * V)) (k : value) (v : V).

Lemma dict_get_proper d k k' dflt :
  py_eq k k' = true → dict_get d k dflt = dict_get d k' dflt.
Proof.
  intros Hk. induction d as [|[k0 v0] d IH]; simpl; [done|].
  rewrite (py_eq_sym k0 k), (py_eq_trans_l _ _ _ Hk), (py_eq_sym k' k0).
  by rewrite IH.
Qed.

Lemma dict_get_set d k v k' dflt :
  dict_get (dict_set d k v) k' dflt
  = if py_eq k k' then v else dict_get d k' dflt.
Proof.
  induction d as [|[k0 v0] d IH]; simpl; [done|].
  destruct (py_eq k0 k) eqn:E0; simpl.
  - rewrite (py_eq_trans_l _ _ _ E0). by destruct (py_eq k k').
  - rewrite IH. destruct (py_eq k0 k') eqn:E1; [|done].
    destruct (py_eq k k') eqn:E2; [|done].
    rewrite (py_eq_trans_l _ _ k E1), py_eq_sym, E2 in E0. done.
Qed.

Lemma dict_set_keys d k v kv :
  kv ∈ dict_set d k v → (∃ v0, (kv.1, v0) ∈ d) ∨ kv = (k, v).
Proof.
  induction d as [|[k0 v0] d IH]; simpl.
  - intros ->%list_elem_of_singleton. by right.
  - destruct (py_eq k0 k).
    + intros [->|H]%elem_of_cons.
      * left. exists v0. simpl. apply elem_of_cons. by left.
      * left. exists kv.2. destruct kv. apply elem_of_cons. by right.
    + intros [->|H]%elem_of_cons.
      * left. exists v0. apply elem_of_cons. by left.
      * destruct (IH H) as [[v1 H1]| ->]; [|by right].
        left. exists v1. apply elem_of_cons. by right.
Qed.

Lemma dict_set_fresh d k v k0 :
  py_eq k0 k = false → Forall (λ kv, py_eq k0 kv.1 = false) d →
  Forall (λ kv, py_eq k0 kv.1 = false) (dict_set d k v).
Proof.
  intros Hk. induction d as [|[k1 v1] d IH]; simpl; intros Hd.
  - by constructor.
  - inversion Hd; subst. destruct (py_eq k1 k); constructor; auto.
Qed.

Lemma dict_set_wf d k v : dict_wf d → dict_wf (dict_set d k v).
Proof.
  induction d as [|[k0 v0] d IH]; simpl.
  - intros _. split; [constructor | done].
  - intros [Hfresh Hwf]. destruct (py_eq k0 k) eqn:E; simpl; [done|].
    split; [by apply dict_set_fresh | by apply IH].
Qed.

Lemma dict_wf_get d k v dflt : dict_wf d → (k, v) ∈ d → dict_get d k dflt = v.
Proof.
  induction d as [|[k0 v0] d IH]; simpl.
  - intros _ H. by apply elem_of_nil in H.
  - intros [Hfresh Hwf] [[= -> ->]|H]%elem_of_cons.
    + by rewrite py_eq_refl.
    + rewrite Forall_forall in Hfresh.
      pose proof (Hfresh _ H) as Hk0. simpl in Hk0. rewrite Hk0. by apply IH.
Qed.
End DictLemmas.

Lemma sum_dict_set (d : list (value * nat)) k n :
  (sum_list (dict_set d k n).*2 + dict_get d k 0 = sum_list d.*2 + n)%nat.
Proof.
  induction d as [|[k0 n0] d IH]; csimpl; [lia|].
  destruct (py_eq k0 k); csimpl; lia.
Qed.

Lemma occurrences_cons item items key k :
  occurrences (item :: items) key k
  = ((if py_eq (get item key) k then 1 else 0) + occurrences items key k)%nat.
Proof. unfold occurrences. simpl. by destruct (py_eq (get item key) k). Qed.

Lemma occurrences_pos items key k item :
  item ∈ items → get item key = k → (0 < occurrences items key k)%nat.
Proof.
  intros Hin <-. induction Hin as [item items | item item' items Hin IH];
    rewrite occurrences_cons.
  - rewrite py_eq_refl. lia.
  - lia.
Qed.

Section TallyLoop.
Variable key : string.

Lemma tally_loop_get items acc k :
  truthy k = true →
  dict_get (fold_left (tally_step key) items acc) k 0%nat
  = (dict_get acc k 0 + occurrences items key k)%nat.
Proof.
  intros Hk. revert acc. induction items as [|item items IH]; intros acc.
  - unfold occurrences. simpl. lia.
  - simpl. rewrite IH, occurrences_cons. unfold tally_step.
    destruct (truthy (get item key)) eqn:Ht; simpl.
    + rewrite dict_get_set. destruct (py_eq (get item key) k) eqn:E; [|lia].
      rewrite (dict_get_proper _ _ _ _ E). lia.
    + destruct (py_eq (get item key) k) eqn:E; [|lia].
      apply py_eq_truthy in E. congruence.
Qed.

Lemma tally_loop_sum items acc :
  sum_list (fold_left (tally_step key) items acc).*2
  = (sum_list acc.*2 + length (bearing items key))%nat.
Proof.
  revert acc. induction items as [|item items IH]; intros acc; simpl; [lia|].
  rewrite IH. unfold tally_step.
  destruct (truthy (get item key)); simpl; [|lia].
  pose proof (sum_dict_set acc (get item key) (dict_get acc (get item key) 0 + 1)%nat).
  lia.
Qed.

Lemma tally_loop_keys items acc kv :
  kv ∈ fold_left (tally_step key) items acc →
  (∃ n0, (kv.1, n0) ∈ acc)
  ∨ (truthy kv.1 = true ∧ ∃ item, item ∈ items ∧ get item key = kv.1).
Proof.
  revert acc. induction items as [|item items IH]; intros acc; simpl.
  - intros H. left. exists kv.2. by destruct kv.
  - intros H. destruct (IH _ H) as [[n0 Hacc]|(Ht & item' & Hin & Hget)].
    + unfold tally_step in Hacc.
      destruct (truthy (get item key)) eqn:Ht; simpl in Hacc; [|eauto].
      apply dict_set_keys in Hacc as [Hold|[= Hk _]]; [by left|].
      right. rewrite Hk. split; [done|]. exists item. split; [left | done].
    + right. split; [done|]. exists item'. split; [by right | done].
Qed.

Lemma tally_loop_wf items acc :
  dict_wf acc → dict_wf (fold_left (tally_step key) items acc).
Proof.
  revert acc. induction items as [|item items IH]; intros acc Hwf; simpl; [done|].
  apply IH. unfold tally_step.
  destruct (truthy (get item key)); simpl; [by apply dict_set_wf | done].
Qed.

Lemma tally_loop_bearing items acc :
  fold_left (tally_step key) (bearing items key) acc
  = fold_left (tally_step key) items acc.
Proof.
  revert acc. induction items as [|item items IH]; intros acc; simpl; [done|].
  destruct (truthy (get item key)) eqn:Ht; simpl; [by rewrite IH|].
  rewrite IH. unfold tally_step at 3. by rewrite Ht.
Qed.
End TallyLoop.

(** C8. [tally] maps each truthy value of [key] to the number of records
    that have it; every entry of the result has a truthy key and that
    number, which is positive; records whose value for [key] is missing or
    falsy play no part; and the counts add up to the number of records with
    a truthy value for [key]. *)
Theorem tally_counts (items : list record) (key : string) :
  (∀ k, truthy k = true →
        dict_get (tally items key) k 0%nat = occurrences items key k)
  ∧ (∀ k n, (k, n) ∈ tally items key →
            truthy k = true ∧ n = occurrences items key k ∧ (0 < n)%nat)
  ∧ dict_wf (tally items key)
  ∧ tally (bearing items key) key = tally items key
  ∧ sum_list (tally items key).*2 = length (bearing items key).
Proof.
  assert (dict_wf (tally items key)) as Hwf by by apply tally_loop_wf.
  assert (∀ k, truthy k = true →
               dict_get (tally items key) k 0%nat = occurrences items key k) as Hget.
  { intros k Hk. unfold tally. by rewrite tally_loop_get. }
  repeat split; try done.
  - destruct (tally_loop_keys key items [] (k, n) H) as [[n0 Hn]|(Ht & _)]; [|done].
    by apply elem_of_nil in Hn.
  - destruct (tally_loop_keys key items [] (k, n) H) as [[n0 Hn]|(Ht & _)];
      [by apply elem_of_nil in Hn|].
    rewrite <- (Hget k Ht). symmetry. by apply dict_wf_get.
  - destruct (tally_loop_keys key items [] (k, n) H)
      as [[n0 Hn]|(Ht & item & Hin & Hitem)]; [by apply elem_of_nil in Hn|].
    rewrite <- (dict_wf_get _ _ _ 0%nat Hwf H), (Hget k Ht).
    by eapply occurrences_pos.
  - apply tally_loop_bearing.
  - unfold tally. by rewrite tally_loop_sum.
Qed.

(** ** The demo login *)

(** C9. [login] answers 200 with [success: true] exactly when the email of
    the request is a key of [USERS] and the password of the request is the
    secret stored for it; in every other case it answers 401 with
    [success: false] and one and the same message. *)
Theorem login_iff_credentials (data : record) :
  (login data = (BLogin true "Login successful", 200) ↔
     ∃ email secret, data !! "email" = Some (VStr email)
                     ∧ USERS !! email = Some secret
                     ∧ data !! "password" = Some (VStr secret))
  ∧ (login data = (BLogin false "Invalid credentials", 401) ↔
     ¬ ∃ email secret, data !! "email" = Some (VStr email)
                       ∧ USERS !! email = Some secret
                       ∧ data !! "password" = Some (VStr secret)).
Proof.
  unfold login.
  set (known := match get data "email" with
                | VStr e => match USERS !! e with
                            | Some stored => py_eq (VStr stored) (get data "password")
                            | None => false
                            end
                | _ => false
                end).
  assert (known = true ↔
          ∃ email secret, data !! "email" = Some (VStr email)
                          ∧ USERS !! email = Some secret
                          ∧ data !! "password" = Some (VStr secret)) as Hknown.
  { unfold known, get. split.
    - destruct (data !! "email") as [[| | |e]|]; simpl; try done.
      destruct (USERS !! e) as [stored|] eqn:Hu; [|done].
      intros Hp%py_eq_str_l. exists e, stored. repeat split; [done|].
      destruct (data !! "password"); simpl in Hp; congruence.
    - intros (e & stored & -> & Hu & ->). simpl. rewrite Hu.
      apply String.eqb_refl. }
  destruct known.
  - split; split; try done.
    + intros _. by apply Hknown.
    + intros Hno. exfalso. by apply Hno, Hknown.
  - split; split; try done.
    + intros H%Hknown. done.
    + intros _ H%Hknown. done.
Qed.

(** ** Further properties of the filtering engine and the list endpoints *)

Lemma filter_bool_all {A} (f : A → bool) l :
  (∀ x, f x = true) → List.filter f l = l.
Proof. intros Hf. induction l as [|x l IH]; simpl; [done|]. by rewrite Hf, IH. Qed.

Lemma filter_bool_ext {A} (f g : A → bool) l :
  (∀ x, f x = g x) → List.filter f l = List.filter g l.
Proof. intros Hfg. induction l as [|x l IH]; simpl; [done|]. by rewrite Hfg, IH. Qed.

Lemma filter_bool_filter {A} (f g : A → bool) l :
  List.filter f (List.filter g l) = List.filter (λ x, g x && f x) l.
Proof.
  induction l as [|x l IH]; simpl; [done|].
  destruct (g x); simpl; [|done]. destruct (f x); by rewrite IH.
Qed.

Lemma filter_bool_impl_sublist {A} (f g : A → bool) l :
  (∀ x, f x = true → g x = true) → List.filter f l `sublist_of` List.filter g l.
Proof.
  intros Hfg. induction l as [|x l IH]; simpl; [constructor|].
  destruct (f x) eqn:Ef.
  - rewrite (Hfg x Ef). by constructor.
  - destruct (g x); [by constructor | done].
Qed.

Lemma bool_eq_iff (a b : bool) : (a = true ↔ b = true) → a = b.
Proof.
  destruct a, b; intros [H1 H2]; try done.
  - symmetry. by apply H1.
  - by apply H2.
Qed.

Lemma matches_empty_cleaned sf item : matches ∅ None sf item = true.
Proof. unfold matches. by rewrite map_to_list_empty. Qed.

Lemma cleaned_filters_all_falsy ef :
  (∀ k v, ef !! k = Some v → truthy v = false) → cleaned_filters ef = ∅.
Proof.
  intros Hf. apply map_eq. intros k. rewrite lookup_empty.
  destruct (cleaned_filters ef !! k) as [v|] eqn:E; [|done].
  apply cleaned_filters_lookup in E as [E Ht]. rewrite (Hf _ _ E) in Ht. done.
Qed.

Lemma apply_filters_unconstrained items ef sq sf :
  (∀ k v, ef !! k = Some v → truthy v = false) →
  lowered_query sq = None →
  apply_filters items ef sq sf = items.
Proof.
  intros Hf Hq. unfold apply_filters. rewrite cleaned_filters_all_falsy, Hq by done.
  apply filter_bool_all. intros item. apply matches_empty_cleaned.
Qed.

Lemma two_args_falsy k1 k2 (a b : option string) :
  (a = None ∨ a = Some "") → (b = None ∨ b = Some "") →
  ∀ k v, ({[ k1 := arg a; k2 := arg b ]} : gmap string value) !! k = Some v →
         truthy v = false.
Proof.
  intros Ha Hb k v Hl.
  apply lookup_insert_Some in Hl as [[_ <-]|[_ Hl]].
  - by destruct Ha as [-> | ->].
  - apply lookup_singleton_Some in Hl as [_ <-]. by destruct Hb as [-> | ->].
Qed.


Lemma apply_limit_prefix limit (l : list record) : apply_limit limit l `prefix_of` l.
Proof.
  unfold apply_limit, slice_to. destruct limit as [n|]; [|done].
  destruct (truthy (VInt n)); [apply prefix_take | done].
Qed.


(** X1. A list request that constrains nothing (each of [county], [type] or
    [category] and [q] absent or empty, [limit] absent or zero) returns the
    whole dataset in its order, and its count is the count that the health
    endpoint reports. *)
Theorem unconstrained_list_is_dataset
    (RESOURCES OPPORTUNITIES : list record)
    (county kind query : option string) (limit : option Z) :
  (county = None ∨ county = Some "") →
  (kind = None ∨ kind = Some "") →
  (query = None ∨ query = Some "") →
  (limit = None ∨ limit = Some 0) →
  list_resources RESOURCES county kind query limit
  = (BList (health_resources (health RESOURCES OPPORTUNITIES)) RESOURCES, 200)
  ∧ list_opportunities OPPORTUNITIES county kind query limit
    = (BList (health_opportunities (health RESOURCES OPPORTUNITIES)) OPPORTUNITIES, 200).
Proof.
  intros Hc Hk Hq Hl. unfold list_resources, list_opportunities.
  assert (lowered_query query = None) as Hlq by by destruct Hq as [-> | ->].
  rewrite (apply_filters_unconstrained RESOURCES)
    by (by apply two_args_falsy || done).
  rewrite (apply_filters_unconstrained OPPORTUNITIES)
    by (by apply two_args_falsy || done).
  by destruct Hl as [-> | ->].
Qed.


(** X3. With limits above zero, a larger limit only adds records at the end:
    the records returned under the smaller limit are a prefix of those
    returned under the larger one, which are a prefix of the records
    returned without a limit. *)
Theorem larger_limit_extends
    (dataset : list record) (county kind query : option string) (n m : Z) :
  0 < n → n ≤ m →
  (results (list_resources dataset county kind query (Some n))
     `prefix_of` results (list_resources dataset county kind query (Some m))
   ∧ results (list_resources dataset county kind query (Some m))
     `prefix_of` results (list_resources dataset county kind query None))
  ∧ (results (list_opportunities dataset county kind query (Some n))
     `prefix_of` results (list_opportunities dataset county kind query (Some m))
   ∧ results (list_opportunities dataset county kind query (Some m))
     `prefix_of` results (list_opportunities dataset county kind query None)).
Proof.
  intros Hn Hm.
  assert (∀ l : list record,
            apply_limit (Some n) l `prefix_of` apply_limit (Some m) l
            ∧ apply_limit (Some m) l `prefix_of` apply_limit None l) as Hgen.
  { intros l. split; [|apply apply_limit_prefix].
    unfold apply_limit, slice_to. simpl.
    destruct (n =? 0) eqn:En; [apply Z.eqb_eq in En; lia|].
    destruct (m =? 0) eqn:Em; [apply Z.eqb_eq in Em; lia|]. simpl.
    replace (take (Z.to_nat (n `max` 0)) l)
      with (take (Z.to_nat (n `max` 0)) (take (Z.to_nat (m `max` 0)) l)).
    - apply prefix_take.
    - rewrite take_take. f_equal. lia. }
  split; apply Hgen.
Qed.

Lemma matches_split cleaned q sf sf' item :
  matches cleaned q sf item
  = matches cleaned None sf' item && matches ∅ q sf item.
Proof.
  unfold matches. rewrite map_to_list_empty. simpl.
  by rewrite andb_true_r.
Qed.

Lemma cleaned_filters_empty : cleaned_filters ∅ = ∅.
Proof. by apply cleaned_filters_all_falsy. Qed.

(** X4. The two tests of [apply_filters] compose: filtering by the exact
    filters alone and then by the search query alone, or the other way
    round, gives what one call with both gives. *)
Theorem exact_then_search_is_both
    (items : list record) (ef : gmap string value) (sq : option string)
    (sf sf' : list string) :
  apply_filters (apply_filters items ef None sf') ∅ sq sf = apply_filters items ef sq sf
  ∧ apply_filters (apply_filters items ∅ sq sf) ef None sf' = apply_filters items ef sq sf.
Proof.
  unfold apply_filters. rewrite !filter_bool_filter, cleaned_filters_empty.
  split; apply filter_bool_ext; intros item;
    rewrite (matches_split (cleaned_filters ef) (lowered_query sq) sf sf'); simpl.
  - done.
  - apply andb_comm.
Qed.

(** X5. [apply_filters] cuts a concatenation piece by piece: the result on
    [items1 ++ items2] is the result on [items1] followed by the result on
    [items2]. *)
Theorem apply_filters_app
    (items1 items2 : list record) (ef : gmap string value) (sq : option string)
    (sf : list string) :
  apply_filters (items1 ++ items2) ef sq sf
  = apply_filters items1 ef sq sf ++ apply_filters items2 ef sq sf.
Proof. unfold apply_filters. apply List.filter_app. Qed.

Lemma field_ok_lower_expected item field e1 e2 :
  lower e1 = lower e2 →
  field_ok item field (VStr e1) = field_ok item field (VStr e2).
Proof. intros H. unfold field_ok. simpl. by rewrite H. Qed.

Lemma matches_ext_cleaned c1 c2 q sf item :
  (∀ k v, c1 !! k = Some v → ∃ v', c2 !! k = Some v' ∧ field_ok item k v = field_ok item k v') →
  matches c2 q sf item = true → matches c1 q sf item = true.
Proof.
  intros Hc. rewrite !matches_spec. intros [Hf Hq]. split; [|done].
  intros k v Hk. destruct (Hc k v Hk) as (v' & Hk' & ->). by apply Hf.
Qed.

Lemma cleaned_insert_lower ef field e1 e2 k v :
  lower e1 = lower e2 →
  cleaned_filters (<[field:=VStr e1]> ef) !! k = Some v →
  ∀ item, ∃ v', cleaned_filters (<[field:=VStr e2]> ef) !! k = Some v'
                ∧ field_ok item k v = field_ok item k v'.
Proof.
  intros He Hk item. apply cleaned_filters_lookup in Hk as [Hk Ht].
  apply lookup_insert_Some in Hk as [[<- <-]|[Hne Hk]].
  - exists (VStr e2). split; [|by apply field_ok_lower_expected].
    apply cleaned_filters_lookup. split; [apply lookup_insert_eq|].
    apply truthy_str. apply truthy_str in Ht. intros ->.
    apply Ht. apply lower_empty. rewrite He. by apply lower_empty.
  - exists v. split; [|done]. apply cleaned_filters_lookup.
    split; [by rewrite lookup_insert_ne | done].
Qed.

(** X6. The case of the criteria does not matter: two expected strings that
    are equal up to case select the same records, and so do two search
    queries that are equal up to case. *)
Theorem criteria_case_insensitive
    (items : list record) (ef : gmap string value) (sq : option string)
    (sf : list string) (field e1 e2 s1 s2 : string) :
  lower e1 = lower e2 → lower s1 = lower s2 →
  apply_filters items (<[field:=VStr e1]> ef) sq sf
  = apply_filters items (<[field:=VStr e2]> ef) sq sf
  ∧ apply_filters items ef (Some s1) sf = apply_filters items ef (Some s2) sf.
Proof.
  intros He Hs. split.
  - unfold apply_filters. apply filter_bool_ext. intros item.
    apply bool_eq_iff. split; apply matches_ext_cleaned; intros k v Hk.
    + by apply (cleaned_insert_lower ef field e2 e1).
    + by apply (cleaned_insert_lower ef field e1 e2).
  - unfold apply_filters. f_equal. f_equal. unfold lowered_query.
    assert (truthy (VStr s1) = truthy (VStr s2)) as ->; [|by rewrite Hs].
    apply bool_eq_iff. rewrite !truthy_str, <- (lower_empty s1), <- (lower_empty s2).
    by rewrite Hs.
Qed.

Lemma str_app_cons c a b : String c a +:+ b = String c (a +:+ b).
Proof. reflexivity. Qed.

Lemma str_app_nil_r a : a +:+ "" = a.
Proof. induction a as [|c a IH]; [done|]. by rewrite str_app_cons, IH. Qed.

Lemma str_app_assoc a b c : (a +:+ b) +:+ c = a +:+ b +:+ c.
Proof. induction a as [|x a IH]; [done|]. by rewrite !str_app_cons, IH. Qed.

Lemma is_substring_refl s : is_substring s s.
Proof. exists "", "". by rewrite str_app_nil_r. Qed.

Lemma is_substring_trans a b c :
  is_substring a b → is_substring b c → is_substring a c.
Proof.
  intros (p1 & q1 & ->) (p2 & q2 & ->). exists (p2 +:+ p1), (q1 +:+ q2).
  by rewrite !str_app_assoc.
Qed.

Lemma is_substring_app_r a b s : is_substring s b → is_substring s (a +:+ b).
Proof. intros (p & q & ->). exists (a +:+ p), q. by rewrite !str_app_assoc. Qed.

Lemma is_substring_app_l a b s : is_substring s a → is_substring s (a +:+ b).
Proof. intros (p & q & ->). exists p, (q +:+ b). by rewrite !str_app_assoc. Qed.

Lemma lower_keeps_ascii_run t h :
  is_ascii t = true → is_substring t h → is_substring (ascii_lower t) (lower h).
Proof.
  intros Ht (p & q & ->). destruct (lower_ascii_run p t q Ht) as (p' & q' & ->).
  by exists p', q'.
Qed.

Lemma join_cons sep p q rest :
  join sep (p :: q :: rest) = p +:+ sep +:+ join sep (q :: rest).
Proof. reflexivity. Qed.

Lemma join_part sep parts p : p ∈ parts → is_substring p (join sep parts).
Proof.
  induction parts as [|p0 [|q rest] IH]; intros Hin.
  - by apply elem_of_nil in Hin.
  - apply list_elem_of_singleton in Hin as ->. apply is_substring_refl.
  - rewrite join_cons. apply elem_of_cons in Hin as [-> | Hin].
    + apply is_substring_app_l, is_substring_refl.
    + apply is_substring_app_r, is_substring_app_r. by apply IH.
Qed.

Lemma join_separator sep p q rest : is_substring sep (join sep (p :: q :: rest)).
Proof.
  rewrite join_cons. apply is_substring_app_r, is_substring_app_l, is_substring_refl.
Qed.

Lemma haystack_field item sf f :
  f ∈ sf → is_substring (str (get_or item f (VStr ""))) (haystack item sf).
Proof.
  intros Hf. unfold haystack. apply join_part.
  apply list_elem_of_In.
  apply (in_map (λ field, str (get_or item field (VStr "")))).
  by apply list_elem_of_In.
Qed.

Lemma add_query_keeps items ef s sf item :
  item ∈ apply_filters items ef None sf →
  is_substring (lower s) (lower (haystack item sf)) →
  item ∈ apply_filters items ef (Some s) sf.
Proof.
  rewrite !elem_of_apply_filters. intros (Hin & Hf & _) Hsub.
  split; [done|]. split; [done|].
  destruct (decide (s = "")) as [-> | Hs]; [done|].
  rewrite query_ok_nonempty by done. by apply contains_spec.
Qed.

Lemma submap_cleaned_lookup (ef ef' : gmap string value) k v :
  ef ⊆ ef' → cleaned_filters ef !! k = Some v → cleaned_filters ef' !! k = Some v.
Proof.
  intros Hsub. rewrite !cleaned_filters_lookup. intros [Hk Ht].
  split; [by eapply lookup_weaken | done].
Qed.

(** X7. More criteria select fewer records: with exact filters that extend
    [ef], the result is a subsequence of the result for [ef]; and the
    result with a search query is a subsequence of the result without
    one. *)
Theorem more_criteria_fewer_results
    (items : list record) (ef ef' : gmap string value) (sq : option string)
    (sf : list string) :
  ef ⊆ ef' →
  apply_filters items ef' sq sf `sublist_of` apply_filters items ef sq sf
  ∧ apply_filters items ef sq sf `sublist_of` apply_filters items ef None sf.
Proof.
  intros Hsub. split; apply filter_bool_impl_sublist; intros item.
  - apply matches_ext_cleaned. intros k v Hk. exists v.
    split; [by eapply submap_cleaned_lookup | done].
  - rewrite !matches_spec. by intros [Hf _].
Qed.

(** X8. The search finds ASCII text where a listed field holds it: a record
    that passes the exact filters and has, in one of the search fields, a
    value whose string form contains a run [t] of ASCII characters that is
    the query up to the case of its letters, the query being ASCII too, is
    kept. *)
Theorem search_finds_listed_field
    (items : list record) (ef : gmap string value) (s t : string)
    (sf : list string) (item : record) (f : string) (v : value) :
  item ∈ apply_filters items ef None sf →
  f ∈ sf →
  item !! f = Some v →
  is_ascii s = true → is_ascii t = true →
  is_substring t (str v) →
  ascii_lower t = ascii_lower s →
  item ∈ apply_filters items ef (Some s) sf.
Proof.
  intros Hin Hf Hv Hs Ht Hsub Hst. apply add_query_keeps; [done|].
  rewrite (lower_on_ascii s Hs), <- Hst. apply lower_keeps_ascii_run; [done|].
  eapply is_substring_trans; [exact Hsub|].
  pose proof (haystack_field item sf f Hf) as Hh.
  unfold get_or in Hh. by rewrite Hv in Hh.
Qed.

(** X9. A search field that is present with the value [None] (a JSON
    [null]) enters the haystack as the text ["None"]: a record that passes
    the exact filters and has such a field is kept by the query ["none"],
    in any case of its letters. *)
Theorem null_field_matches_none
    (items : list record) (ef : gmap string value) (s : string)
    (sf : list string) (item : record) (f : string) :
  item ∈ apply_filters items ef None sf →
  f ∈ sf →
  item !! f = Some VNone →
  lower s = "none" →
  item ∈ apply_filters items ef (Some s) sf.
Proof.
  intros Hin Hf Hv Hs. apply add_query_keeps; [done|]. rewrite Hs.
  change "none" with (ascii_lower (str VNone)).
  apply lower_keeps_ascii_run; [done|].
  pose proof (haystack_field item sf f Hf) as Hh.
  unfold get_or in Hh. by rewrite Hv in Hh.
Qed.

(** X10. With two search fields or more, every haystack holds the space
    that joins them, so the query of one space keeps every record that
    passes the exact filters. *)
Theorem space_query_matches_all
    (items : list record) (ef : gmap string value) (sf : list string) :
  (2 ≤ length sf)%nat →
  apply_filters items ef (Some " ") sf = apply_filters items ef None sf.
Proof.
  intros Hlen. unfold apply_filters. apply filter_bool_ext. intros item.
  unfold matches. f_equal.
  rewrite query_ok_nonempty by done. apply contains_spec.
  rewrite (lower_on_ascii " ") by done.
  apply (lower_keeps_ascii_run " "); [done|].
  destruct sf as [|f1 [|f2 sf]]; simpl in Hlen; [lia..|].
  unfold haystack. simpl map. apply join_separator.
Qed.

(** ** Further properties of the tally and the statistics *)

Lemma dict_get_fresh {V} (d : list (value * V)) k dflt :
  Forall (λ kv, py_eq kv.1 k = false) d → dict_get d k dflt = dflt.
Proof.
  induction d as [|[k0 v0] d IH]; simpl; [done|].
  intros H. inversion H as [|? ? Hk Hd]; subst. simpl in Hk. rewrite Hk. by apply IH.
Qed.

Lemma tally_get items key k :
  dict_get (tally items key) k 0%nat
  = if truthy k then occurrences items key k else 0%nat.
Proof.
  destruct (truthy k) eqn:Hk.
  - unfold tally. by rewrite tally_loop_get.
  - apply dict_get_fresh, Forall_forall. intros [k' n] Hin. simpl.
    destruct (tally_loop_keys key items [] (k', n) Hin) as [[n0 Hn]|[Ht _]].
    + by apply elem_of_nil in Hn.
    + simpl in Ht. destruct (py_eq k' k) eqn:E; [|done].
      apply py_eq_truthy in E. congruence.
Qed.

Lemma occurrences_app items1 items2 key k :
  occurrences (items1 ++ items2) key k
  = (occurrences items1 key k + occurrences items2 key k)%nat.
Proof. unfold occurrences. by rewrite List.filter_app, length_app. Qed.

Lemma filter_bool_length_perm {A} (f : A → bool) l1 l2 :
  l1 ≡ₚ l2 → length (List.filter f l1) = length (List.filter f l2).
Proof.
  induction 1 as [|x l1 l2 _ IH|x y l|l1 l2 l3 _ IH1 _ IH2]; simpl.
  - done.
  - destruct (f x); simpl; by rewrite IH.
  - by destruct (f x), (f y).
  - by rewrite IH1.
Qed.

Lemma occurrences_le_filtered items key c ef sf :
  (∀ k v, ef !! k = Some v → truthy v = true → k = key ∧ v = VStr c) →
  (occurrences items key (VStr c) ≤ length (apply_filters items ef None sf))%nat.
Proof.
  intros Hef. unfold occurrences, apply_filters. apply sublist_length.
  apply filter_bool_impl_sublist. intros item Hitem.
  apply py_eq_str_r in Hitem. apply matches_spec. split; [|done].
  intros field expected [Hl Ht]%cleaned_filters_lookup.
  destruct (Hef _ _ Hl Ht) as [-> ->].
  unfold field_ok. rewrite Hitem. simpl. apply String.eqb_refl.
Qed.

(** X11. The count that the statistics show for a county, a type or a
    category is at most the number of records the list endpoint returns
    when asked for that value alone: the list endpoint also takes the other
    spellings of the value, which the statistics count apart. *)
Theorem stats_count_below_list_count
    (RESOURCES OPPORTUNITIES : list record) (c : string) :
  let st := stats RESOURCES OPPORTUNITIES in
  (dict_get (resources_by_county st) (VStr c) 0
     ≤ length (results (list_resources RESOURCES (Some c) None None None)))%nat
  ∧ (dict_get (resources_by_type st) (VStr c) 0
     ≤ length (results (list_resources RESOURCES None (Some c) None None)))%nat
  ∧ (dict_get (opportunities_by_county st) (VStr c) 0
     ≤ length (results (list_opportunities OPPORTUNITIES (Some c) None None None)))%nat
  ∧ (dict_get (opportunities_by_category st) (VStr c) 0
     ≤ length (results (list_opportunities OPPORTUNITIES None (Some c) None None)))%nat.
Proof.
  assert (∀ items key k1 k2 (a b : option string) sf,
            arg a = VNone ∧ arg b = VStr c ∧ k2 = key
            ∨ arg a = VStr c ∧ arg b = VNone ∧ k1 = key →
            (dict_get (tally items key) (VStr c) 0
               ≤ length (apply_filters items {[ k1 := arg a; k2 := arg b ]} None sf))%nat)
    as Hgen.
  { intros items key k1 k2 a b sf Hab. rewrite tally_get.
    destruct (truthy (VStr c)); [|lia].
    apply occurrences_le_filtered. intros k v Hl Ht.
    apply lookup_insert_Some in Hl as [[<- <-]|[_ Hl]].
    - destruct Hab as [(Ha & _)|(Ha & _ & ->)]; rewrite Ha in *; done.
    - apply lookup_singleton_Some in Hl as [<- <-].
      destruct Hab as [(_ & Hb & ->)|(_ & Hb & _)]; rewrite Hb in *; done. }
  simpl. repeat split; apply Hgen; auto.
Qed.

(** X12. The tally of a concatenation adds up: for every value, the count
    in the tally of [items1 ++ items2] is the sum of its counts in the
    tallies of [items1] and of [items2] (zero where the value is not a
    key). *)
Theorem tally_app (items1 items2 : list record) (key : string) (k : value) :
  dict_get (tally (items1 ++ items2) key) k 0%nat
  = (dict_get (tally items1 key) k 0 + dict_get (tally items2 key) k 0)%nat.
Proof.
  rewrite !tally_get. destruct (truthy k); [apply occurrences_app | done].
Qed.

(** X13. The counts of a tally do not depend on the order of the records:
    two datasets that are permutations of each other give every value the
    same count. *)
Theorem tally_order_irrelevant (items1 items2 : list record) (key : string) (k : value) :
  items1 ≡ₚ items2 →
  dict_get (tally items1 key) k 0%nat = dict_get (tally items2 key) k 0%nat.
Proof.
  intros Hp. rewrite !tally_get. destruct (truthy k); [|done].
  unfold occurrences. by apply filter_bool_length_perm.
Qed.

Lemma bearing_length items key : (length (bearing items key) ≤ length items)%nat.
Proof. apply sublist_length, filter_bool_sublist. Qed.

Lemma bearing_all items key :
  Forall (λ item, truthy (get item key) = true) items → bearing items key = items.
Proof.
  unfold bearing. induction 1 as [|item items Hitem _ IH]; simpl; [done|].
  by rewrite Hitem, IH.
Qed.

(** X14. The counts of each tally of the statistics add up to at most the
    number of records that the health endpoint reports for the dataset, and
    to exactly that number when every record has a truthy value for the
    key. *)
Theorem stats_totals_bounded (RESOURCES OPPORTUNITIES : list record) :
  let st := stats RESOURCES OPPORTUNITIES in
  let h := health RESOURCES OPPORTUNITIES in
  ((sum_list (resources_by_county st).*2 ≤ health_resources h)%nat
   ∧ (sum_list (resources_by_type st).*2 ≤ health_resources h)%nat
   ∧ (sum_list (opportunities_by_county st).*2 ≤ health_opportunities h)%nat
   ∧ (sum_list (opportunities_by_category st).*2 ≤ health_opportunities h)%nat)
  ∧ (Forall (λ r, truthy (get r "county") = true) RESOURCES →
     sum_list (resources_by_county st).*2 = health_resources h).
Proof.
  simpl. unfold tally. rewrite !tally_loop_sum. simpl.
  split; [repeat split; apply bearing_length|].
  intros Hall. by rewrite bearing_all.
Qed.

(** ** The counties endpoint *)

Lemma dict_set_keys_add {V} (d : list (value * V)) k v :
  (dict_set d k v).*1 = set_add d.*1 k.
Proof.
  unfold set_add. induction d as [|[k0 v0] d IH]; csimpl; [done|].
  destruct (py_eq k0 k); csimpl; [done|].
  rewrite IH. by destruct (existsb (λ x, py_eq x k) d.*1).
Qed.

Lemma county_set_loop items acc :
  (fold_left (tally_step "county") items acc).*1
  = fold_left
      (λ s r, if truthy (get r "county") then set_add s (get r "county") else s)
      items acc.*1.
Proof.
  revert acc. induction items as [|item items IH]; intros acc; simpl; [done|].
  rewrite IH. f_equal. unfold tally_step.
  destruct (truthy (get item "county")); simpl; [apply dict_set_keys_add | done].
Qed.

Lemma county_set_tally RESOURCES : county_set RESOURCES = (tally RESOURCES "county").*1.
Proof. unfold county_set, tally. by rewrite county_set_loop. Qed.

Lemma dict_get_pos (d : list (value * nat)) k :
  (0 < dict_get d k 0)%nat → ∃ k', k' ∈ d.*1 ∧ py_eq k' k = true.
Proof.
  induction d as [|[k0 n0] d IH]; csimpl; [lia|].
  destruct (py_eq k0 k) eqn:E.
  - intros _. exists k0. split; [left | done].
  - intros H. destruct (IH H) as (k' & Hin & Hk). exists k'. split; [by right | done].
Qed.

Lemma dict_wf_NoDup {V} (d : list (value * V)) : dict_wf d → NoDup d.*1.
Proof.
  induction d as [|[k0 v0] d IH]; csimpl; [constructor|].
  intros [Hfresh Hwf]. constructor; [|by apply IH].
  intros Hin. apply list_elem_of_fmap in Hin as ([k1 v1] & -> & Hin).
  rewrite Forall_forall in Hfresh. specialize (Hfresh _ Hin). simpl in Hfresh.
  by rewrite py_eq_refl in Hfresh.
Qed.

Lemma county_set_elem RESOURCES k :
  k ∈ county_set RESOURCES →
  truthy k = true ∧ ∃ r, r ∈ RESOURCES ∧ get r "county" = k.
Proof.
  rewrite county_set_tally. intros ([k' n] & -> & Hin)%list_elem_of_fmap.
  destruct (tally_loop_keys "county" RESOURCES [] (k', n) Hin) as [[n0 Hn]|H].
  - by apply elem_of_nil in Hn.
  - done.
Qed.

Lemma county_set_has RESOURCES r :
  r ∈ RESOURCES → truthy (get r "county") = true →
  ∃ k, k ∈ county_set RESOURCES ∧ py_eq k (get r "county") = true.
Proof.
  intros Hin Ht. rewrite county_set_tally. apply dict_get_pos.
  rewrite tally_get, Ht. by eapply occurrences_pos.
Qed.

Lemma county_set_NoDup RESOURCES : NoDup (county_set RESOURCES).
Proof.
  rewrite county_set_tally. apply dict_wf_NoDup. by apply tally_loop_wf.
Qed.

Lemma get_county_str r c :
  get r "county" = VStr c ↔ r !! "county" = Some (VStr c).
Proof.
  unfold get. destruct (r !! "county"); simpl; split; intros H; congruence.
Qed.

(** *** [sorted] *)








Lemma ltb_le y x : String.ltb y x = true → String.le y x.
Proof.
  unfold String.le, String.leb, String.ltb. by destruct (String.compare y x).
Qed.

Lemma not_ltb_le y x : String.ltb y x = false → String.le x y.
Proof.
  unfold String.le, String.leb, String.ltb.
  rewrite (String.compare_antisym y x). by destruct (String.compare x y).
Qed.

Lemma sorted_insert_strings x l :
  StronglySorted String.le l →
  ∃ l', sorted_insert (VStr x) (VStr <$> l) = inr (VStr <$> l')
        ∧ StronglySorted String.le l' ∧ l' ≡ₚ x :: l.
Proof.
  induction l as [|y l IH]; intros Hl; csimpl.
  - exists [x]. repeat split; [|done]. repeat constructor.
  - apply StronglySorted_inv in Hl as [Hl Hy].
    destruct (String.ltb y x) eqn:E.
    + destruct (IH Hl) as (l' & -> & Hs & Hp). exists (y :: l').
      split; [done|]. split; [|by rewrite Hp; apply Permutation_swap].
      constructor; [done|]. rewrite Hp. constructor; [by apply ltb_le | done].
    + exists (x :: y :: l). split; [done|]. split; [|done].
      apply not_ltb_le in E.
      constructor; [by constructor|]. constructor; [done|].
      eapply Forall_impl; [exact Hy|]. intros z Hz. by trans y.
Qed.

Lemma sorted_strings l :
  ∃ l', sorted (VStr <$> l) = inr (VStr <$> l')
        ∧ StronglySorted String.le l' ∧ l' ≡ₚ l.
Proof.
  induction l as [|x l IH]; csimpl.
  - exists []. repeat split; [constructor | done].
  - destruct IH as (r & -> & Hs & Hp).
    destruct (sorted_insert_strings x r Hs) as (l' & -> & Hs' & Hp').
    exists l'. repeat split; [done|]. by rewrite Hp', Hp.
Qed.





Lemma all_str_fmap l : forallb is_str l = true → ∃ l0, l = VStr <$> l0.
Proof.
  induction l as [|[| | |s] l IH]; simpl; try done.
  - by exists [].
  - intros Hl. destruct (IH Hl) as [l0 ->]. by exists (s :: l0).
Qed.

Lemma county_set_text RESOURCES :
  counties_are_text RESOURCES → forallb is_str (county_set RESOURCES) = true.
Proof.
  intros Htext. apply forallb_forall. intros k Hk%list_elem_of_In.
  apply county_set_elem in Hk as (Ht & r & Hr & <-). by apply Htext.
Qed.

Lemma county_set_str_elem RESOURCES c :
  VStr c ∈ county_set RESOURCES ↔
  c ≠ "" ∧ ∃ r, r ∈ RESOURCES ∧ r !! "county" = Some (VStr c).
Proof.
  split.
  - intros (Ht & r & Hr & Hc)%county_set_elem. split; [by apply truthy_str|].
    exists r. split; [done|]. by apply get_county_str.
  - intros (Hc & r & Hr & Hl). apply get_county_str in Hl.
    destruct (county_set_has RESOURCES r Hr) as (k & Hk & Heq).
    { rewrite Hl. by apply truthy_str. }
    rewrite Hl in Heq. apply py_eq_str_r in Heq. by subst.
Qed.

Lemma list_counties_text RESOURCES :
  counties_are_text RESOURCES →
  ∃ cs, list_counties RESOURCES = inr (VStr <$> cs)
        ∧ StronglySorted String.le cs ∧ NoDup cs
        ∧ ∀ c, c ∈ cs ↔ VStr c ∈ county_set RESOURCES.
Proof.
  intros Htext. unfold list_counties.
  destruct (all_str_fmap _ (county_set_text _ Htext)) as [l0 Hl0].
  pose proof (county_set_NoDup RESOURCES) as Hnd. rewrite Hl0 in *.
  destruct (sorted_strings l0) as (cs & -> & Hs & Hp).
  exists cs. repeat split; [done| | |].
  - rewrite Hp. eapply NoDup_fmap_1. exact Hnd.
  - intros Hc. rewrite Hp in Hc. by apply list_elem_of_fmap_2.
  - intros Hc. rewrite Hp. apply list_elem_of_fmap in Hc as (c' & [= ->] & Hc'). done.
Qed.

(** X15. When the county of every record that has one is a string, the
    counties endpoint succeeds, and its list is in ascending order, without
    repetition, and holds exactly the non-empty strings that are the county
    of some record. *)
Theorem counties_sorted_distinct (RESOURCES : list record) :
  counties_are_text RESOURCES →
  ∃ cs, list_counties RESOURCES = inr (VStr <$> cs)
        ∧ Sorted String.le cs
        ∧ NoDup cs
        ∧ ∀ c, c ∈ cs ↔ c ≠ "" ∧ ∃ r, r ∈ RESOURCES ∧ r !! "county" = Some (VStr c).
Proof.
  intros Htext. destruct (list_counties_text _ Htext) as (cs & Hcs & Hs & Hnd & Hin).
  exists cs. split; [done|]. split; [by apply StronglySorted_Sorted|].
  split; [done|]. intros c. rewrite Hin. apply county_set_str_elem.
Qed.

(** X16. The counties endpoint lists the keys of the [resources_by_county]
    tally of the statistics, sorted. *)
Theorem counties_are_sorted_tally_keys (RESOURCES OPPORTUNITIES : list record) :
  list_counties RESOURCES
  = sorted (resources_by_county (stats RESOURCES OPPORTUNITIES)).*1.
Proof. unfold list_counties. simpl. by rewrite county_set_tally. Qed.


(** X18. When the county of every record that has one is a string, the
    answer of the counties endpoint does not depend on the order of the
    records of the dataset. *)
Theorem counties_order_irrelevant (RESOURCES RESOURCES' : list record) :
  counties_are_text RESOURCES →
  RESOURCES ≡ₚ RESOURCES' →
  list_counties RESOURCES = list_counties RESOURCES'.
Proof.
  intros Htext Hp.
  assert (counties_are_text RESOURCES') as Htext'.
  { intros r Hr. apply Htext. by rewrite Hp. }
  destruct (list_counties_text _ Htext) as (cs & -> & Hs & Hnd & Hin).
  destruct (list_counties_text _ Htext') as (cs' & -> & Hs' & Hnd' & Hin').
  do 2 f_equal. apply (StronglySorted_unique String.le); [done..|].
  apply NoDup_Permutation; [done..|]. intros c.
  rewrite Hin, Hin', !county_set_str_elem. by setoid_rewrite Hp.
Qed.

(** ** Start-up *)

(** X19. [bootstrap_data] returns exactly when both data files exist and
    load; a file that is missing, cannot be opened or is malformed makes it
    raise, with the exception of the first file that fails.  When
    it returns, the globals are the contents of the two files, whatever
    they were before; when it raises, [OPPORTUNITIES] is what it was before
    (while [RESOURCES] has been replaced if the second file alone fails);
    and a second call changes nothing more. *)
Theorem bootstrap_data_outcome
    (DATA_DIR : gmap string file) (globals : list record * list record) :
  ((bootstrap_data DATA_DIR globals).2 = None ↔
     ∃ resources opportunities,
       DATA_DIR !! "resources.json" = Some (Loads resources)
       ∧ DATA_DIR !! "scholarships.json" = Some (Loads opportunities))
  ∧ ((bootstrap_data DATA_DIR globals).2 = None →
     DATA_DIR !! "resources.json" = Some (Loads (bootstrap_data DATA_DIR globals).1.1)
     ∧ DATA_DIR !! "scholarships.json"
       = Some (Loads (bootstrap_data DATA_DIR globals).1.2))
  ∧ ((bootstrap_data DATA_DIR globals).2 ≠ None →
     (bootstrap_data DATA_DIR globals).1.2 = globals.2
     ∧ ((bootstrap_data DATA_DIR globals).1.1 = globals.1
        ∨ DATA_DIR !! "resources.json"
          = Some (Loads (bootstrap_data DATA_DIR globals).1.1)))
  ∧ (∀ e, load_dataset DATA_DIR "resources.json" = inl e →
          bootstrap_data DATA_DIR globals = (globals, Some e))
  ∧ (∀ resources e,
       load_dataset DATA_DIR "resources.json" = inr resources →
       load_dataset DATA_DIR "scholarships.json" = inl e →
       bootstrap_data DATA_DIR globals = ((resources, globals.2), Some e))
  ∧ bootstrap_data DATA_DIR (bootstrap_data DATA_DIR globals).1
    = bootstrap_data DATA_DIR globals.
Proof.
  unfold bootstrap_data, load_dataset.
  destruct (DATA_DIR !! "resources.json") as [[| |rs]|] eqn:Hr;
    [| |destruct (DATA_DIR !! "scholarships.json") as [[| |os]|] eqn:Ho|]; simpl;
    split_and!; try done; try (intros; simplify_eq; by eauto);
    try (split; [done | intros (? & ? & ? & ?); simplify_eq]).
  split; [intros _; by exists rs, os | done].
Qed.

(** ** Further properties of the login and of the lookup *)

(** X20. [login] reads the fields [email] and [password] alone: setting or
    removing any other field of the request leaves its answer as it is. *)
Theorem login_ignores_other_fields (data : record) (f : string) (v : value) :
  f ≠ "email" → f ≠ "password" →
  login (<[f:=v]> data) = login data ∧ login (delete f data) = login data.
Proof.
  intros He Hp. unfold login, get.
  by rewrite !lookup_insert_ne, !lookup_delete_ne by done.
Qed.

Lemma login_json_scalars (scalars : record) :
  login_json (JScalar <$> scalars) = inr (login scalars).
Proof.
  unfold login_json, login, json_get, get. rewrite !lookup_fmap.
  destruct (scalars !! "email") as [[| | |e]|]; simpl; try done.
  destruct (USERS !! e) as [stored|]; [|done].
  by destruct (scalars !! "password").
Qed.

(** X21. On a JSON object with any values, [login] raises [TypeError] when
    the [email] is an array or an object (it cannot be hashed for
    [email in USERS]).  When the [email] is a scalar, a request whose
    [email] is not a string (missing and [null] included), or whose
    [password] is not a string, is answered 401 with the message of a wrong
    password.  On an object of scalars it is the [login] above. *)
Theorem login_rejects_non_strings (data : gmap string json) :
  (json_get data "email" = JArray ∨ json_get data "email" = JObject →
   login_json data = inl TypeError)
  ∧ (∀ email, json_get data "email" = JScalar email →
       is_str email = false ∨ (∀ p, json_get data "password" ≠ JScalar (VStr p)) →
       login_json data = inr (BLogin false "Invalid credentials", 401))
  ∧ (∀ scalars : record, data = JScalar <$> scalars →
       login_json data = inr (login scalars)).
Proof.
  split; [|split].
  - unfold login_json. by intros [-> | ->].
  - intros email He Hno. unfold login_json. rewrite He.
    destruct Hno as [Hs|Hp]; [by destruct email|].
    destruct email as [| | |e]; try done.
    destruct (USERS !! e) as [stored|]; [|done].
    destruct (json_get data "password") as [p| |] eqn:Hpw; try done.
    destruct p as [| | |p]; try done. by destruct (Hp p).
  - intros scalars ->. apply login_json_scalars.
Qed.

Lemma first_match_unique (f : record → bool) (l : list record) r :
  r ∈ l → f r = true → (∀ r', r' ∈ l → f r' = true → r' = r) →
  ∃ rest, List.filter f l = r :: rest.
Proof.
  intros Hin Hr Huniq. destruct (List.filter f l) as [|first rest] eqn:E.
  - assert (r ∈ List.filter f l) as Hin'.
    { apply list_elem_of_In, filter_In. split; [by apply list_elem_of_In | done]. }
    rewrite E in Hin'. by apply elem_of_nil in Hin'.
  - assert (first ∈ List.filter f l) as Hf by (rewrite E; left).
    apply list_elem_of_In, filter_In in Hf as [Hf1 Hf2].
    rewrite (Huniq first) by (by apply list_elem_of_In || done). eauto.
Qed.

(** X22. Where identifiers are unique, every record is found by its own:
    if [r] is in the dataset with the string [id] as its [id], and no other
    record of the dataset has that [id], then the lookup of [id] answers
    with [r]. *)
Theorem lookup_finds_unique_id (dataset : list record) (id : string) (r : record) :
  r ∈ dataset → has_id id r →
  (∀ r', r' ∈ dataset → has_id id r' → r' = r) →
  get_resource dataset id = (BRecord r, 200)
  ∧ get_opportunity dataset id = (BRecord r, 200).
Proof.
  intros Hin Hid Huniq. unfold get_resource, get_opportunity.
  destruct (first_match_unique (λ x, py_eq (get x "id") (VStr id)) dataset r)
    as [rest ->]; [done | by apply id_test_spec | | done].
  intros r' Hr' Hid'. apply Huniq; [done | by apply id_test_spec].
Qed.

(** X23. Lookup in a concatenation looks in the first part first: the
    answer for [part1 ++ part2] is the record found in [part1] when there
    is one, and the answer for [part2] otherwise. *)
Theorem lookup_app (part1 part2 : list record) (id : string) :
  get_resource (part1 ++ part2) id
  = match get_resource part1 id with
    | (BRecord r, status) => (BRecord r, status)
    | _ => get_resource part2 id
    end
  ∧ get_opportunity (part1 ++ part2) id
    = match get_opportunity part1 id with
      | (BRecord r, status) => (BRecord r, status)
      | _ => get_opportunity part2 id
      end.
Proof.
  unfold get_resource, get_opportunity. rewrite !List.filter_app.
  by destruct (List.filter _ part1).
Qed.

(** X24. Filtering by a value read from a record finds that record: a
    record of the dataset with a non-empty string as its county (type,
    category) is among the records the list endpoint returns for that
    county (type, category) alone. *)
Theorem list_finds_own_value (dataset : list record) (r : record) (c : string) :
  r ∈ dataset → c ≠ "" →
  (r !! "county" = Some (VStr c) →
     r ∈ results (list_resources dataset (Some c) None None None)
     ∧ r ∈ results (list_opportunities dataset (Some c) None None None))
  ∧ (r !! "type" = Some (VStr c) →
     r ∈ results (list_resources dataset None (Some c) None None))
  ∧ (r !! "category" = Some (VStr c) →
     r ∈ results (list_opportunities dataset None (Some c) None None)).
Proof.
  intros Hin Hc.
  assert (∀ key k1 k2 (a b : option string) sf,
            arg a = VNone ∧ arg b = VStr c ∧ k2 = key
            ∨ arg a = VStr c ∧ arg b = VNone ∧ k1 = key →
            r !! key = Some (VStr c) →
            r ∈ apply_filters dataset {[ k1 := arg a; k2 := arg b ]} None sf) as Hgen.
  { intros key k1 k2 a b sf Hab Hr. apply elem_of_apply_filters.
    split; [done|]. split; [|done]. intros field expected Hl Ht.
    assert (field = key ∧ expected = VStr c) as [-> ->].
    { apply lookup_insert_Some in Hl as [[<- <-]|[_ Hl]].
      - destruct Hab as [(Ha & _)|(Ha & _ & ->)]; rewrite Ha in *; done.
      - apply lookup_singleton_Some in Hl as [<- <-].
        destruct Hab as [(_ & Hb & ->)|(_ & Hb & _)]; rewrite Hb in *; done. }
    unfold field_ok, get. rewrite Hr. simpl. apply String.eqb_refl. }
  split; [|split]; intros Hr.
  - split; apply (Hgen "county"); auto.
  - apply (Hgen "type"); auto.
  - apply (Hgen "category"); auto.
Qed.

End Backend.

(** ** The sample requests, run on ASCII text *)

#[export] Existing Instance ascii_text.

Example list_resources_lake_food :
  list_resources [r1; r2; r3] (Some "lake") (Some "food") None None
  = (BList 1 [r1], 200).
Proof. vm_compute. reflexivity. Qed.

Example list_resources_shelter :
  list_resources [r1; r2; r3] None None (Some "shelter") None
  = (BList 1 [r2], 200).
Proof. vm_compute. reflexivity. Qed.

Example tally_by_county :
  tally [r1; r2; r3] "county" = [(VStr "Lake", 2%nat); (VStr "Cook", 1%nat)].
Proof. vm_compute. reflexivity. Qed.

Example login_demo :
  login {[ "email" := VStr "demo@nrtr.org"; "password" := VStr "demo123" ]}
  = (BLogin true "Login successful", 200)
  ∧ login {[ "email" := VStr "demo@nrtr.org"; "password" := VStr "wrong" ]}
  = (BLogin false "Invalid credentials", 401).
Proof. split; vm_compute; reflexivity. Qed.

Example list_counties_sample :
  list_counties [r1; r2; r3] = inr [VStr "Cook"; VStr "Lake"]
  ∧ list_counties [r1; numbered] = inl TypeError
  ∧ list_counties [numbered] = inr [VInt 7].
Proof. repeat split; vm_compute; reflexivity. Qed.

(** C3, the claim at [limit=0]: the endpoint returns every record, not zero
    records. *)
Lemma limit_zero_returns_all :
  results (list_resources [r1; r2; r3] None None None (Some 0)) = [r1; r2; r3]
  ∧ length (results (list_resources [r1; r2; r3] None None None (Some 0))) ≠ 0%nat.
Proof. split; [vm_compute; reflexivity | vm_compute; discriminate]. Qed.

Lemma sample_counties_are_text : counties_are_text [r1; r2; r3].
Proof.
  intros r Hr _. repeat (apply elem_of_cons in Hr as [-> | Hr]; [reflexivity|]).
  by apply elem_of_nil in Hr.
Defined.

Lemma exact_filter_case_insensitive_witness :
  ∃ v, food_lower !! "type" = Some v ∧ v ≠ VNone ∧ exact_equal v (VStr "Food").
Proof.
  refine (proj1 (exact_filter_case_insensitive
                   [food_lower] {[ "type" := VStr "Food" ]} None ["name"]
                   food_lower "type" (VStr "Food") _ _) _).
  - vm_compute. reflexivity.
  - reflexivity.
  - apply list_elem_of_In. vm_compute. left. reflexivity.
Defined.

Lemma search_query_substring_witness :
  is_substring (lower "SHELTER")
    (lower (haystack r2 ["name"; "description"; "county"; "type"])).
Proof.
  refine (proj1 (search_query_substring [r1; r2; r3] ∅ "SHELTER"
                   ["name"; "description"; "county"; "type"] r2 _) _).
  - discriminate.
  - apply list_elem_of_In. vm_compute. left. reflexivity.
Defined.

Lemma falsy_filter_no_constraint_witness :
  apply_filters [r1; r2; r3] (<["county":=VStr ""]> {[ "type" := VStr "food" ]}) None []
  = apply_filters [r1; r2; r3] (delete "county" {[ "type" := VStr "food" ]}) None [].
Proof.
  apply (falsy_filter_no_constraint [r1; r2; r3] {[ "type" := VStr "food" ]}
           None [] "county" (VStr "")).
  reflexivity.
Defined.

Lemma no_search_fields_no_results_witness :
  apply_filters [r1; r2; r3] ∅ (Some "food") [] = [].
Proof. apply (no_search_fields_no_results [r1; r2; r3] ∅ "food"). discriminate. Defined.

Lemma limit_policy_witness :
  apply_limit (Some (-3)) [r1; r2; r3] = []
  ∧ apply_limit (Some 2) [r1; r2; r3] = take (Z.to_nat (Z.max 2 0)) [r1; r2; r3].
Proof.
  split.
  - apply (proj1 (limit_policy [r1; r2; r3] (-3))). lia.
  - apply (proj1 (proj2 (limit_policy [r1; r2; r3] 2))). lia.
Defined.

Lemma tally_counts_witness :
  dict_get (tally [r1; r2; r3] "county") (VStr "Lake") 0%nat
  = occurrences [r1; r2; r3] "county" (VStr "Lake").
Proof. apply (proj1 (tally_counts [r1; r2; r3] "county")). reflexivity. Defined.

Lemma unconstrained_list_is_dataset_witness :
  list_resources [r1; r2; r3] (Some "") None (Some "") (Some 0)
  = (BList (health_resources (health [r1; r2; r3] [])) [r1; r2; r3], 200)
  ∧ list_opportunities [] (Some "") None (Some "") (Some 0)
    = (BList (health_opportunities (health [r1; r2; r3] [])) [], 200).
Proof.
  apply (unconstrained_list_is_dataset [r1; r2; r3] []); [by right | by left | by right | by right].
Defined.

Lemma larger_limit_extends_witness :
  results (list_resources [r1; r2; r3] None None None (Some 1))
    `prefix_of` results (list_resources [r1; r2; r3] None None None (Some 2)).
Proof.
  apply (larger_limit_extends [r1; r2; r3] None None None 1 2); lia.
Defined.

Lemma criteria_case_insensitive_witness :
  apply_filters [r1; r2; r3] (<["type":=VStr "FOOD"]> ∅) None ["county"]
  = apply_filters [r1; r2; r3] (<["type":=VStr "food"]> ∅) None ["county"]
  ∧ apply_filters [r1; r2; r3] ∅ (Some "Lake") ["county"]
    = apply_filters [r1; r2; r3] ∅ (Some "LAKE") ["county"].
Proof.
  apply (criteria_case_insensitive [r1; r2; r3] ∅ None ["county"] "type" "FOOD" "food");
    reflexivity.
Defined.

Lemma more_criteria_fewer_results_witness :
  apply_filters [r1; r2; r3] {[ "county" := VStr "lake"; "type" := VStr "food" ]} None []
    `sublist_of` apply_filters [r1; r2; r3] {[ "type" := VStr "food" ]} None [].
Proof.
  refine (proj1 (more_criteria_fewer_results [r1; r2; r3] {[ "type" := VStr "food" ]}
                   {[ "county" := VStr "lake"; "type" := VStr "food" ]} None [] _)).
  apply insert_subseteq. reflexivity.
Defined.

Lemma search_finds_listed_field_witness :
  r2 ∈ apply_filters [r1; r2; r3] ∅ (Some "HELTER") ["name"; "description"; "county"; "type"].
Proof.
  apply (search_finds_listed_field [r1; r2; r3] ∅ "HELTER" "helter"
           ["name"; "description"; "county"; "type"] r2 "type" (VStr "Shelter")).
  - apply list_elem_of_In. vm_compute. right. left. reflexivity.
  - apply list_elem_of_In. vm_compute. auto.
  - vm_compute. reflexivity.
  - reflexivity.
  - reflexivity.
  - exists "S", "". reflexivity.
  - reflexivity.
Defined.

Lemma null_field_matches_none_witness :
  undescribed ∈ apply_filters [r1; undescribed] ∅ (Some "None") ["name"; "description"].
Proof.
  apply (null_field_matches_none [r1; undescribed] ∅ "None"
           ["name"; "description"] undescribed "description").
  - apply list_elem_of_In. vm_compute. right. left. reflexivity.
  - apply list_elem_of_In. vm_compute. auto.
  - vm_compute. reflexivity.
  - reflexivity.
Defined.

Lemma space_query_matches_all_witness :
  apply_filters [r1; r2; r3] ∅ (Some " ") ["name"; "type"]
  = apply_filters [r1; r2; r3] ∅ None ["name"; "type"].
Proof. apply (space_query_matches_all [r1; r2; r3] ∅ ["name"; "type"]). simpl. lia. Defined.

Lemma tally_order_irrelevant_witness :
  dict_get (tally [r1; r2; r3] "county") (VStr "Lake") 0%nat
  = dict_get (tally [r3; r2; r1] "county") (VStr "Lake") 0%nat.
Proof.
  apply (tally_order_irrelevant [r1; r2; r3] [r3; r2; r1] "county" (VStr "Lake")).
  change [r3; r2; r1] with (reverse [r1; r2; r3]). symmetry. apply reverse_Permutation.
Defined.

Lemma stats_totals_bounded_witness :
  sum_list (resources_by_county (stats [r1; r2; r3] [])).*2
  = health_resources (health [r1; r2; r3] []).
Proof.
  apply (proj2 (stats_totals_bounded [r1; r2; r3] [])).
  repeat constructor.
Defined.

Lemma counties_sorted_distinct_witness :
  ∃ cs, list_counties [r1; r2; r3] = inr (VStr <$> cs)
        ∧ Sorted String.le cs
        ∧ NoDup cs
        ∧ ∀ c, c ∈ cs ↔ c ≠ "" ∧ ∃ r, r ∈ [r1; r2; r3] ∧ r !! "county" = Some (VStr c).
Proof. apply (counties_sorted_distinct [r1; r2; r3]). apply sample_counties_are_text. Defined.

Lemma counties_order_irrelevant_witness :
  list_counties [r1; r2; r3] = list_counties [r3; r2; r1].
Proof.
  apply (counties_order_irrelevant [r1; r2; r3] [r3; r2; r1]).
  - apply sample_counties_are_text.
  - change [r3; r2; r1] with (reverse [r1; r2; r3]). symmetry. apply reverse_Permutation.
Defined.

Lemma bootstrap_data_outcome_witness :
  bootstrap_data {[ "resources.json" := Loads [r1; r2; r3] ]} ([r2], [r3])
  = (([r1; r2; r3], ([r2], [r3]).2), Some (FileNotFoundError "scholarships.json")).
Proof.
  refine (proj1 (proj2 (proj2 (proj2 (proj2 (bootstrap_data_outcome
            {[ "resources.json" := Loads [r1; r2; r3] ]} ([r2], [r3]))))))
            [r1; r2; r3] (FileNotFoundError "scholarships.json") _ _);
    vm_compute; reflexivity.
Defined.

Lemma login_ignores_other_fields_witness :
  login (<["remember":=VBool true]>
           {[ "email" := VStr "demo@nrtr.org"; "password" := VStr "demo123" ]})
  = login {[ "email" := VStr "demo@nrtr.org"; "password" := VStr "demo123" ]}
  ∧ login (delete "remember"
             {[ "email" := VStr "demo@nrtr.org"; "password" := VStr "demo123" ]})
    = login {[ "email" := VStr "demo@nrtr.org"; "password" := VStr "demo123" ]}.
Proof.
  apply (login_ignores_other_fields
           {[ "email" := VStr "demo@nrtr.org"; "password" := VStr "demo123" ]}
           "remember" (VBool true)); discriminate.
Defined.

Lemma login_rejects_non_strings_witness :
  login_json {[ "email" := JArray; "password" := JScalar (VStr "demo123") ]}
  = inl TypeError
  ∧ login_json {[ "email" := JScalar (VStr "demo@nrtr.org"); "password" := JObject ]}
    = inr (BLogin false "Invalid credentials", 401).
Proof.
  split.
  - apply (proj1 (login_rejects_non_strings
                    {[ "email" := JArray; "password" := JScalar (VStr "demo123") ]})).
    left. vm_compute. reflexivity.
  - refine (proj1 (proj2 (login_rejects_non_strings
              {[ "email" := JScalar (VStr "demo@nrtr.org"); "password" := JObject ]}))
              (VStr "demo@nrtr.org") _ _).
    + vm_compute. reflexivity.
    + right. intros p. vm_compute. discriminate.
Defined.

Lemma lookup_finds_unique_id_witness :
  get_resource [r1; r2; r3] "r2" = (BRecord r2, 200)
  ∧ get_opportunity [r1; r2; r3] "r2" = (BRecord r2, 200).
Proof.
  apply (lookup_finds_unique_id [r1; r2; r3] "r2" r2).
  - right. left.
  - vm_compute. reflexivity.
  - intros r' Hr' Hid.
    repeat (apply elem_of_cons in Hr' as [-> | Hr']; [done || by vm_compute in Hid|]).
    by apply elem_of_nil in Hr'.
Defined.

Lemma list_finds_own_value_witness :
  r3 ∈ results (list_resources [r1; r2; r3] (Some "Cook") None None None)
  ∧ r3 ∈ results (list_opportunities [r1; r2; r3] (Some "Cook") None None None).
Proof.
  refine (proj1 (list_finds_own_value [r1; r2; r3] r3 "Cook" _ _) _).
  - right. right. left.
  - discriminate.
  - vm_compute. reflexivity.
Defined.
